(** * Voice assistant core of Parent Sync (voiceAssistant/VoiceContext)

    A shallow embedding of the [VoiceProvider] component: the request queue
    and its drain loop ([processQueue]), the speech path ([performSpeak]),
    the playback handle ([soundRef], [safeStopAudio], [playStoredAudio],
    [handlePlaybackStatus]), the in-memory audio cache (a JavaScript [Map])
    and the public entry points [speakText] and [stopAudio].

    The component is asynchronous.  Its suspension points are modelled as
    an explicit transition system: pending [setTimeout] callbacks are kept
    in [timers], requests whose HTTP call has not answered yet in
    [inFlight], and the outside world drives the system with [Input]s
    (calls of the public API, playback completion, changes of the mute and
    connectivity flags, the passing of time, a timer firing, an HTTP
    answer).  Every transition returns the audio and network effects it
    performed, in order, as a list of [Event]s.

    Modelling choices.  One provider is mounted.  The flags [isMuted],
    [isOnline] and [isReady] are read at the program points where the code
    names them.  A call of [stopAsync]/[unloadAsync] releases the sound
    (the code swallows their errors and forgets the handle in any case).
    A timer may run at any time from its deadline on.  [getAudioForRoute]
    of [./AudioStorage] is a parameter.  Numbers that measure time are
    rationals; [Math.random()] is a rational in [0, 1).

    Strings are sequences of code units; [String.length] stands for the
    JavaScript [length] and [String.substring] for [substring]. *)

From Stdlib Require Import String Ascii List Bool Arith ZArith QArith Qround.
From Stdlib Require Import Lia Lqa DecimalString.
Import ListNotations.

Local Close Scope Q_scope.
Local Open Scope nat_scope.
Local Open Scope string_scope.
Local Open Scope list_scope.

(** ** JavaScript helpers *)

Module Js.

(** Truthiness of a string value: only the empty string is falsy. *)
Definition truthy (s : string) : bool := negb (String.eqb s "").

(** [s.split("-")[0]]: the code units before the first dash. *)
Fixpoint beforeDash (s : string) : string :=
  match s with
  | EmptyString => EmptyString
  | String c rest =>
      if Ascii.eqb c "-"%char then EmptyString else String c (beforeDash rest)
  end.

(** [array.includes(x)] on an array of strings. *)
Definition includes (xs : list string) (x : string) : bool :=
  existsb (String.eqb x) xs.

(** [a < b] on numbers. *)
Definition lt (a b : Q) : bool := negb (Qle_bool b a).

End Js.

(** ** The JavaScript [Map], keys and values being strings

    A [Map] iterates in insertion order; [set] on a key that is present
    replaces the value and keeps the position, [set] on a new key appends;
    [keys().next().value] is the first key in that order. *)

Module JsMap.

Definition t := list (string * string).

Definition empty : t := [].

Definition size (m : t) : nat := List.length m.

Definition keys (m : t) : list string := List.map fst m.

Fixpoint get (k : string) (m : t) : option string :=
  match m with
  | [] => None
  | (k', v) :: rest => if String.eqb k k' then Some v else get k rest
  end.

Definition has (k : string) (m : t) : bool :=
  match get k m with Some _ => true | None => false end.

Fixpoint set (k v : string) (m : t) : t :=
  match m with
  | [] => [(k, v)]
  | (k', v') :: rest =>
      if String.eqb k k' then (k', v) :: rest else (k', v') :: set k v rest
  end.

Fixpoint delete (k : string) (m : t) : t :=
  match m with
  | [] => []
  | (k', v') :: rest =>
      if String.eqb k k' then rest else (k', v') :: delete k rest
  end.

Definition firstKey (m : t) : option string :=
  match m with
  | [] => None
  | (k, _) :: _ => Some k
  end.

End JsMap.

(** ** Data *)

Definition Handle := nat.

(** An entry of [requestQueueRef.current]: [{ text, languageCode, route }];
    [route] is a string or [null]. *)
Record Request := mkRequest {
  text : string;
  languageCode : string;
  route : option string
}.

(** What a pending [setTimeout] callback does when it runs. *)
Inductive TimerAction :=
| ResumeThrottled (r : Request)   (* processQueue resumes after the 1 s spacing *)
| DrainNext                       (* setTimeout(() => processQueue(), 500) *)
| RetryRateLimited (r : Request)  (* the callback installed on HTTP 429 *)
| ResetRetryCount.                (* the callback installed on repeated HTTP 401 *)

Record Timer := mkTimer {
  deadline : Q;
  action : TimerAction
}.

(** Outcome of the HTTP call: a 2xx answer with
    [response.data.audio?.[0]?.audioContent] (absent when any link of the
    chain is), or a rejection with [error.response?.status]. *)
Inductive NetResult :=
| NetOk (audioContent : option string)
| NetError (status : option Z).

(** The effects on the audio subsystem and on the network. *)
Inductive Event :=
| EvStop (h : Handle)                       (* sound.stopAsync() *)
| EvUnload (h : Handle)                     (* sound.unloadAsync() *)
| EvCreate (h : Handle) (uri : string)      (* Audio.Sound.createAsync, shouldPlay *)
| EvNet (sourceLanguage input serviceId : string).  (* ttsAxios POST *)

(** What the environment decides during one transition: whether
    [Audio.Sound.createAsync] accepts a URI, and the value drawn by the
    [Math.random()] of the back-off delay. *)
Record Oracle := mkOracle {
  createOk : string -> bool;
  random : Q
}.

(** The refs and flags of [VoiceProvider], the module-level [audioCache],
    and the run-time bookkeeping of the model: pending timers, HTTP calls
    in flight, the clock read by [Date.now()], the next fresh handle. *)
Record State := mkState {
  soundRef : option Handle;
  isMuted : bool;
  isReady : bool;
  isOnline : bool;
  retryCount : nat;
  requestQueue : list Request;
  processingQueue : bool;
  lastApiCallTimestamp : Q;
  audioCache : JsMap.t;
  timers : list Timer;
  inFlight : list Request;
  clock : Q;
  nextHandle : Handle
}.

Definition set_soundRef (v : option Handle) (s : State) : State :=
  mkState v (isMuted s) (isReady s) (isOnline s) (retryCount s)
    (requestQueue s) (processingQueue s) (lastApiCallTimestamp s)
    (audioCache s) (timers s) (inFlight s) (clock s) (nextHandle s).

Definition set_isMuted (v : bool) (s : State) : State :=
  mkState (soundRef s) v (isReady s) (isOnline s) (retryCount s)
    (requestQueue s) (processingQueue s) (lastApiCallTimestamp s)
    (audioCache s) (timers s) (inFlight s) (clock s) (nextHandle s).

Definition set_isReady (v : bool) (s : State) : State :=
  mkState (soundRef s) (isMuted s) v (isOnline s) (retryCount s)
    (requestQueue s) (processingQueue s) (lastApiCallTimestamp s)
    (audioCache s) (timers s) (inFlight s) (clock s) (nextHandle s).

Definition set_isOnline (v : bool) (s : State) : State :=
  mkState (soundRef s) (isMuted s) (isReady s) v (retryCount s)
    (requestQueue s) (processingQueue s) (lastApiCallTimestamp s)
    (audioCache s) (timers s) (inFlight s) (clock s) (nextHandle s).

Definition set_retryCount (v : nat) (s : State) : State :=
  mkState (soundRef s) (isMuted s) (isReady s) (isOnline s) v
    (requestQueue s) (processingQueue s) (lastApiCallTimestamp s)
    (audioCache s) (timers s) (inFlight s) (clock s) (nextHandle s).

Definition set_requestQueue (v : list Request) (s : State) : State :=
  mkState (soundRef s) (isMuted s) (isReady s) (isOnline s) (retryCount s)
    v (processingQueue s) (lastApiCallTimestamp s)
    (audioCache s) (timers s) (inFlight s) (clock s) (nextHandle s).

Definition set_processingQueue (v : bool) (s : State) : State :=
  mkState (soundRef s) (isMuted s) (isReady s) (isOnline s) (retryCount s)
    (requestQueue s) v (lastApiCallTimestamp s)
    (audioCache s) (timers s) (inFlight s) (clock s) (nextHandle s).

Definition set_lastApiCallTimestamp (v : Q) (s : State) : State :=
  mkState (soundRef s) (isMuted s) (isReady s) (isOnline s) (retryCount s)
    (requestQueue s) (processingQueue s) v
    (audioCache s) (timers s) (inFlight s) (clock s) (nextHandle s).

Definition set_audioCache (v : JsMap.t) (s : State) : State :=
  mkState (soundRef s) (isMuted s) (isReady s) (isOnline s) (retryCount s)
    (requestQueue s) (processingQueue s) (lastApiCallTimestamp s)
    v (timers s) (inFlight s) (clock s) (nextHandle s).

Definition set_timers (v : list Timer) (s : State) : State :=
  mkState (soundRef s) (isMuted s) (isReady s) (isOnline s) (retryCount s)
    (requestQueue s) (processingQueue s) (lastApiCallTimestamp s)
    (audioCache s) v (inFlight s) (clock s) (nextHandle s).

Definition set_inFlight (v : list Request) (s : State) : State :=
  mkState (soundRef s) (isMuted s) (isReady s) (isOnline s) (retryCount s)
    (requestQueue s) (processingQueue s) (lastApiCallTimestamp s)
    (audioCache s) (timers s) v (clock s) (nextHandle s).

Definition set_clock (v : Q) (s : State) : State :=
  mkState (soundRef s) (isMuted s) (isReady s) (isOnline s) (retryCount s)
    (requestQueue s) (processingQueue s) (lastApiCallTimestamp s)
    (audioCache s) (timers s) (inFlight s) v (nextHandle s).

Definition set_nextHandle (v : Handle) (s : State) : State :=
  mkState (soundRef s) (isMuted s) (isReady s) (isOnline s) (retryCount s)
    (requestQueue s) (processingQueue s) (lastApiCallTimestamp s)
    (audioCache s) (timers s) (inFlight s) (clock s) v.

(** The provider as mounted: [useRef]/[useState] initial values and an
    empty cache.  The mute flag comes from [MuteContext]. *)
Definition initialState (muted : bool) (now : Q) : State :=
  mkState None muted false true 0 [] false 0%Q JsMap.empty [] [] now 0.

(** ** Constants of the module *)

Definition LOCAL_AUDIO_LANGUAGES : list string := ["en"; "hi"; "kn"].
Definition INDO_ARYAN_LANGUAGES : list string := ["bn"; "pa"; "mr"; "gu"; "hi"].
Definition DRAVIDIAN_LANGUAGES : list string := ["te"; "ta"; "kn"].

Definition CACHE_LIMIT : nat := 50.
Definition TEXT_LIMIT : nat := 300.
Definition RETRY_QUEUE_LIMIT : nat := 5.

(** [languageCode.split("-")[0] || "en"] *)
Definition baseLanguage (languageCode : string) : string :=
  let b := Js.beforeDash languageCode in
  if Js.truthy b then b else "en".

Definition serviceIdFor (sourceLanguage : string) : string :=
  if Js.includes DRAVIDIAN_LANGUAGES sourceLanguage
  then "ai4bharat/indic-tts-dravidian--gpu-t4"
  else if Js.includes INDO_ARYAN_LANGUAGES sourceLanguage
  then "ai4bharat/indic-tts-indo-aryan--gpu-t4"
  else "ai4bharat/indic-tts-indo-aryan--gpu-t4".

(** [`${text}_${languageCode}`] *)
Definition cacheKey (r : Request) : string :=
  text r ++ "_" ++ languageCode r.

(** [`data:audio/wav;base64,${content}`] *)
Definition wavUri (content : string) : string :=
  "data:audio/wav;base64," ++ content.

(** [audioCache.set(cacheKey, audioUri)] followed by the size check that
    deletes [audioCache.keys().next().value]. *)
Definition cachePut (key uri : string) (c : JsMap.t) : JsMap.t :=
  let c1 := JsMap.set key uri c in
  if (CACHE_LIMIT <? JsMap.size c1)%nat then
    match JsMap.firstKey c1 with
    | Some oldestKey => JsMap.delete oldestKey c1
    | None => c1
    end
  else c1.

(** The truncation step of [speakText]. *)
Definition truncateText (t : string) : string :=
  if (TEXT_LIMIT <? String.length t)%nat
  then String.substring 0 TEXT_LIMIT t ++ "..."
  else t.

(** ** The random helpers of the request headers *)

Definition userAgents : list string :=
  ["Mozilla/5.0 (Windows NT 10.0; Win64; x64) AppleWebKit/537.36 (KHTML, like Gecko) Chrome/111.0.0.0 Safari/537.36";
   "Mozilla/5.0 (iPhone; CPU iPhone OS 16_4 like Mac OS X) AppleWebKit/605.1.15 (KHTML, like Gecko) Version/16.4 Mobile/15E148 Safari/604.1";
   "Mozilla/5.0 (iPad; CPU OS 16_4 like Mac OS X) AppleWebKit/605.1.15 (KHTML, like Gecko) Version/16.4 Mobile/15E148 Safari/604.1";
   "Mozilla/5.0 (Macintosh; Intel Mac OS X 10_15_7) AppleWebKit/605.1.15 (KHTML, like Gecko) Version/16.4 Safari/605.1.15";
   "Mozilla/5.0 (X11; Linux x86_64) AppleWebKit/537.36 (KHTML, like Gecko) Chrome/111.0.0.0 Safari/537.36"].

(** [Math.floor(Math.random() * n)], the draw being [rnd]. *)
Definition floorRandom (rnd : Q) (n : Z) : Z := Qfloor (rnd * inject_Z n)%Q.

(** [array[Math.floor(Math.random() * array.length)]]; an index outside
    the array gives [undefined]. *)
Definition getRandomItem {A : Type} (array : list A) (rnd : Q) : option A :=
  let i := floorRandom rnd (Z.of_nat (List.length array)) in
  if (i <? 0)%Z then None else nth_error array (Z.to_nat i).

(** The decimal notation of an integer, as [join] writes a number. *)
Definition decimal (z : Z) : string := NilZero.string_of_int (Z.to_int z).

(** [Array(4).fill(0).map(() => Math.floor(Math.random() * 256)).join(".")],
    the four draws in order. *)
Definition generateRandomIP (r1 r2 r3 r4 : Q) : string :=
  String.concat "." (List.map (fun r => decimal (floorRandom r 256)) [r1; r2; r3; r4]).



(** A store with no asset at all. *)
Definition emptyStore (route language : string) : option string := None.

Definition acceptAll : Oracle := mkOracle (fun _ => true) 0%Q.

(** ** The component *)

Inductive Completion :=
| Finished   (* performSpeak returned or its catch block ran *)
| Awaiting.  (* performSpeak is suspended on the HTTP call *)

(** What drives the component from outside. *)
Inductive Input :=
| CallSpeakText (t : string) (lang : option string) (rt : option string)
| CallStopAudio
| PlaybackFinished                (* a status update with didJustFinish *)
| SetMuted (b : bool)
| SetOnline (b : bool)
| SetReady                        (* setupAudio finished, either way *)
| Advance (dt : Q)                (* time passes *)
| TimerFires (i : nat)            (* the i-th pending timer runs, if due *)
| NetResponds (i : nat) (r : NetResult).  (* the i-th HTTP call settles *)

Fixpoint removeNth {A : Type} (i : nat) (l : list A) : list A :=
  match i, l with
  | _, [] => []
  | O, _ :: rest => rest
  | S j, x :: rest => x :: removeNth j rest
  end.

Definition addTimer (delay : Q) (a : TimerAction) (s : State) : State :=
  set_timers (timers s ++ [mkTimer (clock s + delay)%Q a]) s.

(** ** Worked scenarios

    Sequences of inputs used to evaluate the component on concrete runs. *)

(** A request that is sent at once and answered with HTTP 401, then one
    second passes. *)
Definition authFailure (t : string) : list (Oracle * Input) :=
  [(acceptAll, CallSpeakText t None None);
   (acceptAll, NetResponds 0 (NetError (Some 401%Z)));
   (acceptAll, Advance 1000%Q)].

(** Four requests in a row are answered with HTTP 401; after each the
    drain loop runs dry. *)
Definition fourAuthFailures : list (Oracle * Input) :=
  (acceptAll, SetReady) ::
  authFailure "one" ++ (acceptAll, TimerFires 0) ::
  authFailure "two" ++ (acceptAll, TimerFires 0) ::
  authFailure "three" ++ (acceptAll, TimerFires 0) ::
  authFailure "four" ++ [(acceptAll, TimerFires 1)].



(** "Hi" is synthesised, cached and played; it is asked for again while
    the first playback is still running. *)
Definition playTwice : list (Oracle * Input) :=
  [(acceptAll, SetReady);
   (acceptAll, CallSpeakText "Hi" (Some "en") None);
   (acceptAll, NetResponds 0 (NetOk (Some "AAAA")));
   (acceptAll, Advance 1000%Q);
   (acceptAll, TimerFires 0);
   (acceptAll, CallSpeakText "Hi" (Some "en") None)].

(** An environment whose random draw is one half. *)
Definition drawHalf : Oracle := mkOracle (fun _ => true) (1 # 2)%Q.

Fixpoint replicate (n : nat) (c : ascii) : string :=
  match n with
  | O => EmptyString
  | S m => String c (replicate m c)
  end.

(** A text of 301 characters, and its being spoken. *)
Definition longText : string := replicate 301 "a"%char.

Definition speakLongText : list (Oracle * Input) :=
  [(acceptAll, SetReady);
   (acceptAll, CallSpeakText longText None None)].

(** A request is sent and its HTTP call is pending. *)
Definition oneInFlight : list (Oracle * Input) :=
  [(acceptAll, SetReady);
   (acceptAll, CallSpeakText "Hi" None None)].


(** Proof automation: case analysis on the code paths of a function. *)

Ltac break_match :=
  match goal with
  | |- context [match ?x with _ => _ end] =>
      lazymatch x with
      | context [match _ with _ => _ end] => fail
      | _ => destruct x eqn:?
      end
  end.

Ltac same_handle :=
  repeat match goal with
    | |- context [Nat.eq_dec ?a ?a] =>
        destruct (Nat.eq_dec a a); [|congruence]
    end.

Ltac open_state s :=
  destruct s as [[?h|] ? ? ? ? ? ? ? ? ? ? ? ?].

Ltac break_in H :=
  match type of H with
  | context [match ?x with _ => _ end] =>
      lazymatch x with
      | context [match _ with _ => _ end] => fail
      | _ => destruct x eqn:?
      end
  end.

Ltac settle H :=
  repeat (break_in H; simpl in H);
  first [ injection H as <- <- <- | injection H as <- <- ];
  simpl in *; same_handle; simpl;
  repeat split; auto; try discriminate; try congruence.

Section VoiceProvider.

Set Default Proof Using "Type".

(** [getAudioForRoute] of [./AudioStorage]: the bundled base64 clip of a
    route in a language, if there is one. *)
Variable getAudioForRoute : string -> string -> option string.

Definition safeStopAudio (s : State) : State * list Event :=
  match soundRef s with
  | Some h => (set_soundRef None s, [EvStop h; EvUnload h])
  | None => (s, [])
  end.

Definition stopAudio (s : State) : State * list Event := safeStopAudio s.

Definition handlePlaybackStatus (didJustFinish : bool) (s : State)
  : State * list Event :=
  if didJustFinish then
    match soundRef s with
    | Some currentSound => (set_soundRef None s, [EvUnload currentSound])
    | None => (s, [])
    end
  else (s, []).

(** [Audio.Sound.createAsync({ uri }, { shouldPlay: true }, ...)]: a fresh
    handle, or a rejection. *)
Definition createAsync (o : Oracle) (uri : string) (s : State)
  : option (Handle * State) :=
  if createOk o uri
  then Some (nextHandle s, set_nextHandle (S (nextHandle s)) s)
  else None.

Definition playStoredAudio (o : Oracle) (audioBase64 : string) (s : State)
  : bool * State * list Event :=
  if negb (Js.truthy audioBase64) then (false, s, [])
  else
    let '(s1, ev1) := safeStopAudio s in
    let audioUri := wavUri audioBase64 in
    match createAsync o audioUri s1 with
    | Some (sound, s2) =>
        (true, set_soundRef (Some sound) s2, ev1 ++ [EvCreate sound audioUri])
    | None => (false, s1, ev1)
    end.

(** The guard [LOCAL_AUDIO_LANGUAGES.includes(baseLanguage) && route]
    with the lookup it protects and the test [if (storedAudio)]. *)
Definition storedAudioFor (r : Request) : option string :=
  let base := baseLanguage (languageCode r) in
  match route r with
  | Some rt =>
      if (Js.includes LOCAL_AUDIO_LANGUAGES base && Js.truthy rt)%bool then
        match getAudioForRoute rt base with
        | Some storedAudio =>
            if Js.truthy storedAudio then Some storedAudio else None
        | None => None
        end
      else None
  | None => None
  end.

(** The catch block of [performSpeak]. *)
Definition handleError (o : Oracle) (r : Request) (status : option Z)
    (s : State) : State :=
  let s1 := set_retryCount (S (retryCount s)) s in
  match status with
  | Some code =>
      if (code =? 429)%Z then
        addTimer (5000 + random o * 500)%Q (RetryRateLimited r) s1
      else if (code =? 401)%Z then
        if (3 <? retryCount s1)%nat
        then addTimer (5 * 60 * 1000)%Q ResetRetryCount s1
        else s1
      else s1
  | None => s1
  end.

(** [performSpeak] up to its return or to the HTTP call. *)
Definition performSpeak (o : Oracle) (r : Request) (s : State)
  : Completion * State * list Event :=
  if negb (isOnline s) then
    match storedAudioFor r with
    | Some storedAudio =>
        let '(_, s1, ev) := playStoredAudio o storedAudio s in
        (Finished, s1, ev)
    | None => (Finished, s, [])
    end
  else
    let '(s1, ev1) := safeStopAudio s in
    let '(success, s2, ev2) :=
      match storedAudioFor r with
      | Some storedAudio => playStoredAudio o storedAudio s1
      | None => (false, s1, [])
      end in
    if success then (Finished, s2, ev1 ++ ev2)
    else
      match JsMap.get (cacheKey r) (audioCache s2) with
      | Some cachedAudioUri =>
          match createAsync o cachedAudioUri s2 with
          | Some (sound, s3) =>
              (Finished, set_soundRef (Some sound) s3,
               ev1 ++ ev2 ++ [EvCreate sound cachedAudioUri])
          | None => (Finished, handleError o r None s2, ev1 ++ ev2)
          end
      | None =>
          let s3 := set_lastApiCallTimestamp (clock s2) s2 in
          let sourceLanguage := baseLanguage (languageCode r) in
          (Awaiting, set_inFlight (inFlight s3 ++ [r]) s3,
           ev1 ++ ev2 ++
           [EvNet sourceLanguage (text r) (serviceIdFor sourceLanguage)])
      end.

(** [performSpeak] from the settlement of the HTTP call on. *)
Definition performSpeakResume (o : Oracle) (r : Request) (res : NetResult)
    (s : State) : State * list Event :=
  match res with
  | NetOk audioContent =>
      if isMuted s then (s, [])
      else
        match audioContent with
        | Some content =>
            if Js.truthy content then
              let audioUri := wavUri content in
              let s1 :=
                set_audioCache (cachePut (cacheKey r) audioUri (audioCache s)) s in
              match createAsync o audioUri s1 with
              | Some (sound, s2) =>
                  (set_retryCount 0 (set_soundRef (Some sound) s2),
                   [EvCreate sound audioUri])
              | None => (handleError o r None s1, [])
              end
            else (handleError o r None s, [])
        | None => (handleError o r None s, [])
        end
  | NetError status => (handleError o r status s, [])
  end.

(** The end of [processQueue]: [setTimeout(() => processQueue(), 500)]. *)
Definition scheduleDrain (s : State) : State := addTimer 500%Q DrainNext s.

(** [processQueue] from [await performSpeak(...)] on. *)
Definition runRequest (o : Oracle) (r : Request) (s : State)
  : State * list Event :=
  match performSpeak o r s with
  | (Finished, s1, ev) => (scheduleDrain s1, ev)
  | (Awaiting, s1, ev) => (s1, ev)
  end.

Definition processQueue (o : Oracle) (s : State) : State * list Event :=
  match requestQueue s with
  | [] => (set_processingQueue false s, [])
  | request :: rest =>
      let s1 := set_requestQueue rest (set_processingQueue true s) in
      let timeSinceLastCall := (clock s1 - lastApiCallTimestamp s1)%Q in
      if Js.lt timeSinceLastCall 1000%Q then
        (addTimer (1000 - timeSinceLastCall)%Q (ResumeThrottled request) s1, [])
      else runRequest o request s1
  end.

(** [speakText(text, languageCode = "en", route = null)].  An argument
    [lang] of [None] is an absent or non-string language code; an
    argument [rt] of [None] is [null] or any non-string value, which the
    function replaces by [null]. *)
Definition speakText (o : Oracle) (t : string) (lang : option string)
    (rt : option string) (s : State) : State * list Event :=
  if (negb (isReady s) || negb (Js.truthy t) || isMuted s)%bool then (s, [])
  else
    let t' := truncateText t in
    let lang' :=
      match lang with
      | Some l => if Js.truthy l then l else "en"
      | None => "en"
      end in
    let s1 := set_requestQueue (requestQueue s ++ [mkRequest t' lang' rt]) s in
    if negb (processingQueue s1) then processQueue o s1 else (s1, []).

(** The callback of a timer. *)
Definition fireTimer (o : Oracle) (a : TimerAction) (s : State)
  : State * list Event :=
  match a with
  | ResumeThrottled r => runRequest o r s
  | DrainNext => processQueue o s
  | RetryRateLimited r =>
      if (List.length (requestQueue s) <? RETRY_QUEUE_LIMIT)%nat then
        let s1 := set_requestQueue (requestQueue s ++ [r]) s in
        if negb (processingQueue s1) then processQueue o s1 else (s1, [])
      else (s, [])
  | ResetRetryCount => (set_retryCount 0 s, [])
  end.

Definition step (o : Oracle) (i : Input) (s : State) : State * list Event :=
  match i with
  | CallSpeakText t lang rt => speakText o t lang rt s
  | CallStopAudio => stopAudio s
  | PlaybackFinished => handlePlaybackStatus true s
  | SetMuted b => (set_isMuted b s, [])
  | SetOnline b => (set_isOnline b s, [])
  | SetReady => (set_isReady true s, [])
  | Advance dt =>
      if Qle_bool 0 dt then (set_clock (clock s + dt)%Q s, []) else (s, [])
  | TimerFires n =>
      match nth_error (timers s) n with
      | Some tm =>
          if Qle_bool (deadline tm) (clock s)
          then fireTimer o (action tm) (set_timers (removeNth n (timers s)) s)
          else (s, [])
      | None => (s, [])
      end
  | NetResponds n res =>
      match nth_error (inFlight s) n with
      | Some r =>
          let s1 := set_inFlight (removeNth n (inFlight s)) s in
          let '(s2, ev) := performSpeakResume o r res s1 in
          (scheduleDrain s2, ev)
      | None => (s, [])
      end
  end.

(** A run: the inputs in order, each with what the environment decides
    during it; the result is the final state and all effects so far. *)
Fixpoint run (ins : list (Oracle * Input)) (s : State) : State * list Event :=
  match ins with
  | [] => (s, [])
  | (o, i) :: rest =>
      let '(s1, ev1) := step o i s in
      let '(s2, ev2) := run rest s1 in
      (s2, ev1 ++ ev2)
  end.

(** The handles that are loaded after a sequence of effects, starting
    from the handles [l]. *)
Fixpoint liveAfter (l : list Handle) (evs : list Event) : list Handle :=
  match evs with
  | [] => l
  | EvCreate h _ :: rest => liveAfter (l ++ [h]) rest
  | EvUnload h :: rest => liveAfter (List.remove Nat.eq_dec h l) rest
  | _ :: rest => liveAfter l rest
  end.

Definition live (evs : list Event) : list Handle := liveAfter [] evs.

Definition isNet (e : Event) : bool :=
  match e with EvNet _ _ _ => true | _ => false end.

Definition isCreate (e : Event) : bool :=
  match e with EvCreate _ _ => true | _ => false end.

Definition held (s : State) : list Handle :=
  match soundRef s with Some h => [h] | None => [] end.

(** Playback is exclusive along a sequence of effects that starts with
    the handles [l] loaded: a sound is only created when none is loaded,
    and never more than one is. *)
Fixpoint exclusive (l : list Handle) (evs : list Event) : Prop :=
  match evs with
  | [] => True
  | e :: rest =>
      (if isCreate e then l = [] else True) /\
      List.length (liveAfter l [e]) <= 1 /\
      exclusive (liveAfter l [e]) rest
  end.

(** Activations of the drain loop that are suspended: on the 1 s
    spacing, on the 500 ms pause, or on an HTTP call. *)
Definition isDrainTimer (tm : Timer) : bool :=
  match action tm with
  | ResumeThrottled _ | DrainNext => true
  | RetryRateLimited _ | ResetRetryCount => false
  end.

Definition suspended (s : State) : nat :=
  List.length (List.filter isDrainTimer (timers s)) + List.length (inFlight s).

(** ** Invariants and notions used in the statements *)

(** The cache keeps its shape through a put of a key it does not hold. *)
Definition CacheOk (c : JsMap.t) : Prop :=
  JsMap.size c <= CACHE_LIMIT /\ NoDup (JsMap.keys c).

(** The invariant of the provider: one activation of the drain loop at
    most, marked by [processingQueueRef]; nothing queued while idle; no
    sound held and no cache entry for a request whose HTTP call is
    pending; the cache within its bound, keys distinct. *)
Record Inv (s : State) : Prop := mkInv {
  inv_suspended : suspended s = if processingQueue s then 1 else 0;
  inv_idle : processingQueue s = false -> requestQueue s = [];
  inv_silent : inFlight s <> [] -> soundRef s = None;
  inv_uncached :
    forall r, In r (inFlight s) -> JsMap.get (cacheKey r) (audioCache s) = None;
  inv_cache : CacheOk (audioCache s)
}.

(** Effects [ev] lead from [s] to [s'] with exclusive playback. *)
Definition AudioOk (s : State) (ev : list Event) (s' : State) : Prop :=
  exclusive (held s) ev /\ liveAfter (held s) ev = held s'.

Definition sameSetting (s s' : State) : Prop :=
  isMuted s' = isMuted s /\ isReady s' = isReady s /\
  isOnline s' = isOnline s /\ audioCache s' = audioCache s /\
  clock s' = clock s.

(** Putting entries with distinct keys, one after the other, into the
    empty cache leaves the last [CACHE_LIMIT] of them, in the order in
    which they were put. *)
Definition putAll (kvs : list (string * string)) (c : JsMap.t) : JsMap.t :=
  fold_left (fun acc kv => cachePut (fst kv) (snd kv) acc) kvs c.

Definition runFrom (muted : bool) (now : Q) (ins : list (Oracle * Input))
  : State * list Event :=
  run ins (initialState muted now).

Definition timerRequests (tm : Timer) : list Request :=
  match action tm with
  | ResumeThrottled r | RetryRateLimited r => [r]
  | DrainNext | ResetRetryCount => []
  end.

(** The requests the provider still has to deal with. *)
Definition pending (s : State) : list Request :=
  requestQueue s ++ inFlight s ++ flat_map timerRequests (timers s).

(** The [input] fields of the HTTP calls among some effects. *)
Definition netInputs (evs : list Event) : list string :=
  flat_map (fun e => match e with EvNet _ input _ => [input] | _ => [] end) evs.

(** The relation between the text given to [speakText] and the text of
    the request, in the words of the specification: unchanged up to 300
    characters, else the first 300 characters and an ellipsis. *)
Definition truncationOf (t x : string) : Prop :=
  (String.length t <= 300 /\ x = t) \/
  (300 < String.length t /\ x = (String.substring 0 300 t ++ "...")%string).

(** The texts given to [speakText] along some inputs. *)
Definition callTexts (ins : list (Oracle * Input)) : list string :=
  flat_map (fun oi => match snd oi with
                      | CallSpeakText t _ _ => [t]
                      | _ => []
                      end) ins.

Definition fromCall (ins : list (Oracle * Input)) (x : string) : Prop :=
  exists t, In t (callTexts ins) /\ t <> "" /\ truncationOf t x.

(** ** Notions used in the further properties *)

(** The language code [speakText] enqueues: the argument when it is a
    non-empty string, and else "en". *)
Definition defaultLanguage (lang : option string) : string :=
  match lang with
  | Some l => if Js.truthy l then l else "en"
  | None => "en"
  end.

(** The request [speakText] pushes for its arguments. *)
Definition newRequest (t : string) (lang rt : option string) : Request :=
  mkRequest (truncateText t) (defaultLanguage lang) rt.

(** The HTTP call [performSpeak] makes for a request. *)
Definition netEvent (r : Request) : Event :=
  EvNet (baseLanguage (languageCode r)) (text r)
    (serviceIdFor (baseLanguage (languageCode r))).

(** A request is held at [s], or is the one the input [i] brings in. *)
Definition origin (i : Input) (s : State) (x : Request) : Prop :=
  In x (pending s) \/
  exists t lang rt,
    i = CallSpeakText t lang rt /\ Js.truthy t = true /\
    x = newRequest t lang rt.

(** A string without a dash. *)
Fixpoint dashFree (x : string) : bool :=
  match x with
  | EmptyString => true
  | String c rest => negb (Ascii.eqb c "-"%char) && dashFree rest
  end.

Definition wellFormed (r : Request) : Prop :=
  text r <> "" /\ String.length (text r) <= 303 /\ languageCode r <> "".

(** A URI of the form [data:audio/wav;base64,<content>], content not
    empty. *)
Definition isWav (uri : string) : Prop :=
  exists content, content <> "" /\ uri = wavUri content.

Definition wavCache (c : JsMap.t) : Prop :=
  Forall (fun kv => isWav (snd kv)) c.

Definition wavEvent (e : Event) : Prop :=
  match e with
  | EvCreate _ uri => isWav uri
  | _ => True
  end.

(** Every pending resumption of a throttled request is due no earlier
    than one second after the last HTTP call. *)
Definition throttled (s : State) : Prop :=
  forall tm r,
    In tm (timers s) -> action tm = ResumeThrottled r ->
    (lastApiCallTimestamp s + 1000 <= deadline tm)%Q.


(** The time of the last HTTP call is rewritten exactly by a transition
    that makes an HTTP call, and then holds the time of that call. *)
Definition stamped (s : State) (ev : list Event) (s' : State) : Prop :=
  (existsb isNet ev = true /\ lastApiCallTimestamp s' = clock s) \/
  (existsb isNet ev = false /\
   lastApiCallTimestamp s' = lastApiCallTimestamp s).


(** ** Effects and loaded handles *)

Lemma liveAfter_app (l : list Handle) (a b : list Event) :
  liveAfter l (a ++ b) = liveAfter (liveAfter l a) b.
Proof.
  revert l; induction a as [|e a IH]; intro l; [reflexivity|].
  destruct e; simpl; apply IH.
Qed.

Lemma exclusive_app (l : list Handle) (a b : list Event) :
  exclusive l (a ++ b) <-> exclusive l a /\ exclusive (liveAfter l a) b.
Proof.
  revert l; induction a as [|e a IH]; intro l.
  - simpl; tauto.
  - change ((e :: a) ++ b) with (e :: (a ++ b)).
    cbn [exclusive]. rewrite IH.
    replace (liveAfter l (e :: a)) with (liveAfter (liveAfter l [e]) a)
      by (destruct e; reflexivity).
    tauto.
Qed.

Lemma exclusive_firstn (l : list Handle) (evs : list Event) (n : nat) :
  List.length l <= 1 -> exclusive l evs ->
  List.length (liveAfter l (firstn n evs)) <= 1.
Proof.
  revert l n; induction evs as [|e evs IH]; intros l n Hl Hx.
  - destruct n; exact Hl.
  - destruct n as [|n]; [exact Hl|].
    destruct Hx as (_ & H1 & Hx).
    change (firstn (S n) (e :: evs)) with ([e] ++ firstn n evs).
    rewrite liveAfter_app. apply IH; assumption.
Qed.

Lemma exclusive_create (l : list Handle) (evs : list Event) (n : nat)
    (h : Handle) (uri : string) :
  exclusive l evs -> nth_error evs n = Some (EvCreate h uri) ->
  liveAfter l (firstn n evs) = [] /\
  liveAfter l (firstn (S n) evs) = [h].
Proof.
  revert l n; induction evs as [|e evs IH]; intros l n Hx Hn.
  - destruct n; discriminate.
  - destruct n as [|n].
    + injection Hn as ->. destruct Hx as (Hl & _ & _). simpl in Hl.
      subst l. split; reflexivity.
    + destruct Hx as (_ & _ & Hx).
      change (firstn (S n) (e :: evs)) with ([e] ++ firstn n evs).
      change (firstn (S (S n)) (e :: evs)) with ([e] ++ firstn (S n) evs).
      rewrite !liveAfter_app. apply IH; assumption.
Qed.

(** ** Lemmas on lists and on the cache *)

Lemma removeNth_length {A : Type} (n : nat) (l : list A) (x : A) :
  nth_error l n = Some x -> S (List.length (removeNth n l)) = List.length l.
Proof.
  revert n; induction l as [|y l IH]; intros [|n] H; try discriminate.
  - reflexivity.
  - simpl. f_equal. apply IH. exact H.
Qed.

Lemma removeNth_filter {A : Type} (f : A -> bool) (n : nat) (l : list A) (x : A) :
  nth_error l n = Some x ->
  List.length (filter f (removeNth n l)) + (if f x then 1 else 0)
  = List.length (filter f l).
Proof.
  revert n; induction l as [|y l IH]; intros [|n] H; try discriminate.
  - injection H as ->. simpl. destruct (f x); simpl; lia.
  - simpl. specialize (IH n H). destruct (f y); simpl; lia.
Qed.

Lemma removeNth_filter_out {A : Type} (f : A -> bool) (n : nat) (l : list A)
    (x : A) :
  nth_error l n = Some x -> f x = false ->
  filter f (removeNth n l) = filter f l.
Proof.
  revert n; induction l as [|y l IH]; intros [|n] H Hx; try discriminate.
  - injection H as ->. simpl. now rewrite Hx.
  - simpl. rewrite (IH n H Hx). reflexivity.
Qed.

Lemma removeNth_In {A : Type} (n : nat) (l : list A) (x : A) :
  In x (removeNth n l) -> In x l.
Proof.
  revert n; induction l as [|y l IH]; intros [|n] H; simpl in *; auto.
  destruct H as [H|H]; eauto.
Qed.

Lemma get_None_keys (k : string) (c : JsMap.t) :
  JsMap.get k c = None <-> ~ In k (JsMap.keys c).
Proof.
  induction c as [|[k' v'] c IH]; simpl.
  - split; [intros _ [] | reflexivity].
  - destruct (String.eqb_spec k k') as [->|Hne].
    + split; [discriminate | intros H; exfalso; apply H; now left].
    + rewrite IH. split.
      * intros H [E|E]; [congruence | contradiction].
      * intros H E; apply H; now right.
Qed.

Lemma set_absent (k v : string) (c : JsMap.t) :
  JsMap.get k c = None -> JsMap.set k v c = c ++ [(k, v)].
Proof.
  induction c as [|[k' v'] c IH]; simpl; [reflexivity|].
  destruct (String.eqb k k'); [discriminate|].
  intros H; now rewrite IH.
Qed.

Lemma cachePut_absent (k v : string) (c : JsMap.t) :
  JsMap.get k c = None ->
  cachePut k v c =
  if (JsMap.size c <? CACHE_LIMIT)%nat then c ++ [(k, v)] else tl c ++ [(k, v)].
Proof.
  intros H. unfold cachePut. rewrite (set_absent _ _ _ H).
  unfold JsMap.size. rewrite length_app, Nat.add_1_r.
  change (CACHE_LIMIT <? S (List.length c))%nat
    with (CACHE_LIMIT <=? List.length c)%nat.
  rewrite Nat.leb_antisym.
  destruct (List.length c <? CACHE_LIMIT)%nat eqn:E; simpl; [reflexivity|].
  destruct c as [|[k0 v0] c]; [discriminate|].
  simpl. now rewrite String.eqb_refl.
Qed.

Lemma get_app_absent (k k' v' : string) (c : JsMap.t) :
  JsMap.get k (c ++ [(k', v')]) =
  match JsMap.get k c with
  | Some v => Some v
  | None => if String.eqb k k' then Some v' else None
  end.
Proof.
  induction c as [|[k0 v0] c IH]; simpl; [reflexivity|].
  destruct (String.eqb k k0); [reflexivity | exact IH].
Qed.

Lemma keys_app (c : JsMap.t) (k v : string) :
  JsMap.keys (c ++ [(k, v)]) = JsMap.keys c ++ [k].
Proof. unfold JsMap.keys. now rewrite map_app. Qed.

Lemma NoDup_snoc {A : Type} (l : list A) (x : A) :
  NoDup l -> ~ In x l -> NoDup (l ++ [x]).
Proof.
  induction 1 as [|y l Hy Hl IH]; intros Hx; simpl.
  - constructor; [intros []|constructor].
  - constructor.
    + rewrite in_app_iff. intros [H|[H|[]]]; [contradiction|].
      apply Hx. now left.
    + apply IH. intros H; apply Hx; now right.
Qed.

Lemma cachePut_ok (k v : string) (c : JsMap.t) :
  CacheOk c -> JsMap.get k c = None -> CacheOk (cachePut k v c).
Proof.
  intros [Hsz Hnd] Habs. rewrite (cachePut_absent _ _ _ Habs).
  apply get_None_keys in Habs.
  destruct (JsMap.size c <? CACHE_LIMIT)%nat eqn:E.
  - apply Nat.ltb_lt in E. split.
    + unfold JsMap.size in *. rewrite length_app. simpl. lia.
    + rewrite keys_app. now apply NoDup_snoc.
  - destruct c as [|[k0 v0] c]; [discriminate|]. simpl tl. split.
    + unfold JsMap.size in *. rewrite length_app. simpl in *. lia.
    + rewrite keys_app. simpl in Hnd, Habs. inversion Hnd; subst.
      apply NoDup_snoc; [assumption|]. intros H; apply Habs; now right.
Qed.

Lemma safeStopAudio_spec (s : State) :
  forall s' ev, safeStopAudio s = (s', ev) ->
    s' = set_soundRef None s /\ AudioOk s ev s'.
Proof.
  intros s' ev. unfold safeStopAudio, AudioOk, held.
  destruct s as [[h|] ? ? ? ? ? ? ? ? ? ? ? ?]; simpl;
    intros [= <- <-]; simpl; same_handle; simpl; repeat split; auto.
Qed.

Lemma playStoredAudio_spec (o : Oracle) (a : string) (s : State) :
  forall ok s' ev, playStoredAudio o a s = (ok, s', ev) ->
    Js.truthy a = true ->
    AudioOk s ev s' /\
    (ok = true -> exists h, soundRef s' = Some h /\
       ev = snd (safeStopAudio s) ++ [EvCreate h (wavUri a)]) /\
    (ok = false -> soundRef s' = None) /\
    isMuted s' = isMuted s /\ isReady s' = isReady s /\
    isOnline s' = isOnline s /\ retryCount s' = retryCount s /\
    requestQueue s' = requestQueue s /\
    processingQueue s' = processingQueue s /\
    lastApiCallTimestamp s' = lastApiCallTimestamp s /\
    audioCache s' = audioCache s /\ timers s' = timers s /\
    inFlight s' = inFlight s /\ clock s' = clock s.
Proof.
  intros ok s' ev. unfold playStoredAudio, safeStopAudio, createAsync, AudioOk, held.
  intros H Ha. rewrite Ha in H. simpl in H.
  destruct s as [[h|] ? ? ? ? ? ? ? ? ? ? ? ?]; simpl in *;
    destruct (createOk o (wavUri a)); simpl in *;
    injection H as <- <- <-; simpl; same_handle; simpl;
    repeat split; auto; try discriminate; eauto.
Qed.

Lemma performSpeak_spec (o : Oracle) (r : Request) (s : State) :
  forall c s' ev, performSpeak o r s = (c, s', ev) ->
    AudioOk s ev s' /\
    isMuted s' = isMuted s /\ isReady s' = isReady s /\
    isOnline s' = isOnline s /\
    requestQueue s' = requestQueue s /\
    processingQueue s' = processingQueue s /\
    audioCache s' = audioCache s /\ timers s' = timers s /\
    clock s' = clock s /\
    (c = Finished -> inFlight s' = inFlight s) /\
    (c = Awaiting ->
       inFlight s' = inFlight s ++ [r] /\ soundRef s' = None /\
       JsMap.get (cacheKey r) (audioCache s) = None).
Proof.
  intros c s' ev.
  unfold performSpeak, playStoredAudio, safeStopAudio, createAsync,
    handleError, AudioOk, held.
  open_state s; simpl; intros H; settle H.
Qed.

Lemma filter_snoc_false {A : Type} (f : A -> bool) (l : list A) (x : A) :
  f x = false -> filter f (l ++ [x]) = filter f l.
Proof.
  intros H. rewrite filter_app. simpl. rewrite H. apply app_nil_r.
Qed.

Lemma handleError_spec (o : Oracle) (r : Request) (st : option Z) (s : State) :
  let s' := handleError o r st s in
  soundRef s' = soundRef s /\ isMuted s' = isMuted s /\
  isReady s' = isReady s /\ isOnline s' = isOnline s /\
  requestQueue s' = requestQueue s /\
  processingQueue s' = processingQueue s /\
  audioCache s' = audioCache s /\ inFlight s' = inFlight s /\
  clock s' = clock s /\ nextHandle s' = nextHandle s /\
  filter isDrainTimer (timers s') = filter isDrainTimer (timers s).
Proof.
  unfold handleError, addTimer.
  destruct st as [code|]; simpl; [|repeat split; reflexivity].
  destruct (code =? 429)%Z; simpl.
  - repeat split; try reflexivity. now apply filter_snoc_false.
  - destruct (code =? 401)%Z; simpl; [|repeat split; reflexivity].
    destruct (3 <? S (retryCount s))%nat; simpl; repeat split; try reflexivity.
    now apply filter_snoc_false.
Qed.

Lemma performSpeakResume_spec (o : Oracle) (r : Request) (res : NetResult)
    (s : State) :
  forall s' ev, performSpeakResume o r res s = (s', ev) ->
    (soundRef s = None -> AudioOk s ev s') /\
    isMuted s' = isMuted s /\ isReady s' = isReady s /\
    isOnline s' = isOnline s /\
    requestQueue s' = requestQueue s /\
    processingQueue s' = processingQueue s /\
    inFlight s' = inFlight s /\ clock s' = clock s /\
    filter isDrainTimer (timers s') = filter isDrainTimer (timers s) /\
    (audioCache s' = audioCache s \/
     exists uri, audioCache s' = cachePut (cacheKey r) uri (audioCache s)).
Proof.
  intros s' ev H.
  assert (E : forall st, handleError o r st s = s' -> ev = [] ->
    (soundRef s = None -> AudioOk s ev s') /\
    isMuted s' = isMuted s /\ isReady s' = isReady s /\
    isOnline s' = isOnline s /\
    requestQueue s' = requestQueue s /\
    processingQueue s' = processingQueue s /\
    inFlight s' = inFlight s /\ clock s' = clock s /\
    filter isDrainTimer (timers s') = filter isDrainTimer (timers s) /\
    (audioCache s' = audioCache s \/
     exists uri, audioCache s' = cachePut (cacheKey r) uri (audioCache s))).
  { intros st <- ->.
    destruct (handleError_spec o r st s)
      as (H1 & H2 & H3 & H4 & H5 & H6 & H7 & H8 & H9 & H10 & H11).
    repeat split; auto. unfold held. now rewrite H1. }
  unfold performSpeakResume in H.
  destruct res as [[content|]|st].
  - destruct (isMuted s) eqn:Hm.
    { injection H as <- <-. repeat split; auto. }
    destruct (Js.truthy content).
    + unfold createAsync in H. cbv zeta in H.
      destruct (createOk o (wavUri content)).
      * injection H as <- <-. simpl.
        repeat split; auto; unfold held in *; simpl; eauto;
          match goal with Hs : soundRef s = None |- _ => now rewrite Hs end.
      * clear E. injection H as <- <-. simpl.
        repeat split; eauto.
    + injection H as <- <-. now apply (E None).
  - destruct (isMuted s) eqn:Hm.
    { injection H as <- <-. repeat split; auto. }
    injection H as <- <-. now apply (E None).
  - injection H as <- <-. now apply (E st).
Qed.

Lemma suspended_zero (s : State) :
  suspended s = 0 ->
  filter isDrainTimer (timers s) = [] /\ inFlight s = [].
Proof.
  unfold suspended. intros H.
  split; apply length_zero_iff_nil; lia.
Qed.

Lemma runRequest_ok (o : Oracle) (r : Request) (s : State) :
  forall s' ev, runRequest o r s = (s', ev) ->
    suspended s = 0 -> processingQueue s = true -> CacheOk (audioCache s) ->
    Inv s' /\ AudioOk s ev s'.
Proof.
  intros s' ev H H0 Hp Hc. unfold runRequest in H.
  destruct (performSpeak o r s) as [[c s1] ev1] eqn:E.
  apply performSpeak_spec in E.
  destruct E as (Ha & _ & _ & _ & Hq & Hpq & Hca & Ht & _ & Hf & Hw).
  destruct (suspended_zero s H0) as [Hd Hi].
  destruct c; injection H as <- <-.
  - specialize (Hf eq_refl). split.
    + constructor; unfold scheduleDrain, addTimer, suspended; simpl.
      * rewrite Hpq, Hp, Ht, Hf, Hi, filter_app, Hd. reflexivity.
      * rewrite Hpq, Hp. discriminate.
      * rewrite Hf, Hi. congruence.
      * rewrite Hf, Hi. intros ? [].
      * now rewrite Hca.
    + exact Ha.
  - destruct (Hw eq_refl) as (Hw1 & Hw2 & Hw3). split.
    + constructor; unfold suspended.
      * rewrite Hpq, Hp, Ht, Hw1, Hi, Hd. reflexivity.
      * rewrite Hpq, Hp. discriminate.
      * intros _. exact Hw2.
      * rewrite Hw1, Hi, Hca. intros r' [<-|[]]. exact Hw3.
      * now rewrite Hca.
    + exact Ha.
Qed.

Lemma AudioOk_refl (s s' : State) :
  soundRef s' = soundRef s -> AudioOk s [] s'.
Proof. unfold AudioOk, held. intros ->. simpl. auto. Qed.

Lemma AudioOk_held (s s1 s' : State) (ev : list Event) :
  soundRef s1 = soundRef s -> AudioOk s1 ev s' -> AudioOk s ev s'.
Proof. unfold AudioOk, held. intros ->. auto. Qed.

Lemma processQueue_ok (o : Oracle) (s : State) :
  forall s' ev, processQueue o s = (s', ev) ->
    suspended s = 0 -> CacheOk (audioCache s) ->
    Inv s' /\ AudioOk s ev s'.
Proof.
  intros s' ev H H0 Hc. unfold processQueue in H.
  destruct (suspended_zero s H0) as [Hd Hi].
  destruct (requestQueue s) as [|request rest] eqn:Hq.
  - injection H as <- <-. split; [|now apply AudioOk_refl].
    constructor; simpl.
    + exact H0.
    + intros _. exact Hq.
    + rewrite Hi. congruence.
    + rewrite Hi. intros ? [].
    + exact Hc.
  - match type of H with
    | (if ?b then _ else _) = _ => destruct b
    end.
    + injection H as <- <-. split; [|now apply AudioOk_refl].
      constructor; unfold addTimer, suspended; simpl.
      * rewrite filter_app, Hd, Hi. reflexivity.
      * discriminate.
      * rewrite Hi. congruence.
      * rewrite Hi. intros ? [].
      * exact Hc.
    + apply runRequest_ok in H; [| exact H0 | reflexivity | exact Hc].
      destruct H as [HI HA]. split; [exact HI|].
      eapply AudioOk_held; [|exact HA]. reflexivity.
Qed.

Lemma Inv_frame (s s' : State) :
  Inv s ->
  filter isDrainTimer (timers s') = filter isDrainTimer (timers s) ->
  inFlight s' = inFlight s ->
  processingQueue s' = processingQueue s ->
  (processingQueue s = false -> requestQueue s' = []) ->
  audioCache s' = audioCache s ->
  (soundRef s' = soundRef s \/ soundRef s' = None) ->
  Inv s'.
Proof.
  intros [I1 I2 I3 I4 I5] Ht Hf Hp Hq Hc Hs.
  constructor; unfold suspended in *.
  - now rewrite Ht, Hf, Hp.
  - rewrite Hp. exact Hq.
  - rewrite Hf. intros H. destruct Hs as [->| ->]; auto.
  - rewrite Hf, Hc. exact I4.
  - now rewrite Hc.
Qed.

Lemma Inv_busy (s : State) :
  Inv s -> 0 < suspended s ->
  processingQueue s = true /\ suspended s = 1.
Proof.
  intros [I1 _ _ _ _] H. destruct (processingQueue s); [auto | lia].
Qed.

Lemma speakText_ok (o : Oracle) (t : string) (lang rt : option string)
    (s : State) :
  forall s' ev, speakText o t lang rt s = (s', ev) ->
    Inv s -> Inv s' /\ AudioOk s ev s'.
Proof.
  intros s' ev H HI. unfold speakText in H.
  destruct (negb (isReady s) || negb (Js.truthy t) || isMuted s)%bool.
  { injection H as <- <-. split; [exact HI | now apply AudioOk_refl]. }
  cbv zeta in H. simpl processingQueue in H.
  destruct (processingQueue s) eqn:Hp; simpl in H.
  - injection H as <- <-. split; [|now apply AudioOk_refl].
    apply (Inv_frame s); auto. simpl. rewrite Hp. discriminate.
  - apply processQueue_ok in H.
    + destruct H as [H1 H2]. split; [exact H1|].
      eapply AudioOk_held; [|exact H2]. reflexivity.
    + destruct HI as [I1 _ _ _ _]. rewrite Hp in I1. exact I1.
    + apply HI.
Qed.

Lemma fireTimer_ok (o : Oracle) (n : nat) (tm : Timer) (s : State) :
  forall s' ev,
    nth_error (timers s) n = Some tm ->
    fireTimer o (action tm) (set_timers (removeNth n (timers s)) s) = (s', ev) ->
    Inv s -> Inv s' /\ AudioOk s ev s'.
Proof.
  intros s' ev Hn H HI.
  set (s1 := set_timers (removeNth n (timers s)) s) in *.
  assert (Hs : suspended s1 + (if isDrainTimer tm then 1 else 0) = suspended s).
  { unfold suspended, s1. simpl.
    pose proof (removeNth_filter isDrainTimer n (timers s) tm Hn). lia. }
  assert (Hheld : soundRef s1 = soundRef s) by reflexivity.
  assert (Hc1 : CacheOk (audioCache s1)) by apply HI.
  unfold isDrainTimer in Hs.
  destruct (action tm) as [r| |r|] eqn:Ea; unfold fireTimer in H.
  - destruct (Inv_busy s HI ltac:(lia)) as [Hp H1].
    apply runRequest_ok in H; [| lia | exact Hp | exact Hc1].
    destruct H as [H2 H3]. split; [exact H2|].
    eapply AudioOk_held; [|exact H3]. reflexivity.
  - destruct (Inv_busy s HI ltac:(lia)) as [Hp H1].
    apply processQueue_ok in H; [| lia | exact Hc1].
    destruct H as [H2 H3]. split; [exact H2|].
    eapply AudioOk_held; [|exact H3]. reflexivity.
  - assert (HI1 : Inv s1).
    { apply (Inv_frame s); auto; [|apply HI].
      apply (removeNth_filter_out _ _ _ _ Hn).
      unfold isDrainTimer. now rewrite Ea. }
    destruct (List.length (requestQueue s1) <? RETRY_QUEUE_LIMIT)%nat.
    + cbv zeta in H. simpl processingQueue in H.
      destruct (processingQueue s) eqn:Hp; simpl in H.
      * injection H as <- <-. split; [|now apply AudioOk_refl].
        apply (Inv_frame s1); auto. simpl. rewrite Hp. discriminate.
      * apply processQueue_ok in H.
        -- destruct H as [H1 H2]. split; [exact H1|].
           eapply AudioOk_held; [|exact H2]. reflexivity.
        -- destruct HI1 as [I1 _ _ _ _]. simpl in I1. rewrite Hp in I1.
           exact I1.
        -- exact Hc1.
    + injection H as <- <-. split; [exact HI1 | now apply AudioOk_refl].
  - injection H as <- <-. split; [|now apply AudioOk_refl].
    apply (Inv_frame s); auto; simpl.
    + apply (removeNth_filter_out _ _ _ _ Hn).
      unfold isDrainTimer. now rewrite Ea.
    + apply HI.
Qed.

Lemma netResponds_ok (o : Oracle) (n : nat) (res : NetResult) (r : Request)
    (s : State) :
  forall s2 ev,
    nth_error (inFlight s) n = Some r ->
    performSpeakResume o r res (set_inFlight (removeNth n (inFlight s)) s)
      = (s2, ev) ->
    Inv s -> Inv (scheduleDrain s2) /\ AudioOk s ev (scheduleDrain s2).
Proof.
  intros s2 ev Hn H HI.
  set (s1 := set_inFlight (removeNth n (inFlight s)) s) in *.
  assert (Hpos : 0 < suspended s).
  { unfold suspended. destruct (inFlight s); [destruct n; discriminate|].
    simpl. lia. }
  destruct (Inv_busy s HI Hpos) as [Hp H1].
  assert (Hsil : soundRef s = None).
  { apply HI. intros E. rewrite E in Hn. destruct n; discriminate. }
  assert (Hunc : JsMap.get (cacheKey r) (audioCache s) = None).
  { apply HI. eapply nth_error_In. exact Hn. }
  pose proof (removeNth_length n (inFlight s) r Hn) as Hlen.
  unfold suspended in H1.
  assert (Hd : filter isDrainTimer (timers s) = [])
    by (apply length_zero_iff_nil; lia).
  assert (Hi : removeNth n (inFlight s) = [])
    by (apply length_zero_iff_nil; lia).
  apply performSpeakResume_spec in H.
  destruct H as (Ha & _ & _ & _ & Hq & Hpq & Hf & _ & Ht & Hc).
  simpl in Hf, Hpq, Ht, Hc. rewrite Hi in Hf.
  split.
  - constructor; unfold scheduleDrain, addTimer, suspended; simpl.
    + rewrite filter_app, Ht, Hd, Hf, Hpq, Hp. reflexivity.
    + rewrite Hpq, Hp. discriminate.
    + rewrite Hf. congruence.
    + rewrite Hf. intros ? [].
    + destruct Hc as [-> | [uri ->]]; [apply HI|].
      apply cachePut_ok; [apply HI | exact Hunc].
  - specialize (Ha Hsil). unfold AudioOk, held in *. simpl in *. exact Ha.
Qed.

Theorem step_ok (o : Oracle) (i : Input) (s : State) :
  forall s' ev, step o i s = (s', ev) ->
    Inv s -> Inv s' /\ AudioOk s ev s'.
Proof.
  intros s' ev H HI. destruct i; simpl in H.
  - now apply speakText_ok in H.
  - apply safeStopAudio_spec in H. destruct H as [-> Ha].
    split; [|exact Ha]. apply (Inv_frame s); auto; apply HI.
  - destruct (soundRef s) as [h|] eqn:Hs.
    + injection H as <- <-. split.
      * apply (Inv_frame s); auto; apply HI.
      * unfold AudioOk, held. rewrite Hs. simpl.
        destruct (Nat.eq_dec h h); [|congruence]. simpl. auto.
    + injection H as <- <-. split; [exact HI | now apply AudioOk_refl].
  - injection H as <- <-. split; [|now apply AudioOk_refl].
    apply (Inv_frame s); auto; apply HI.
  - injection H as <- <-. split; [|now apply AudioOk_refl].
    apply (Inv_frame s); auto; apply HI.
  - injection H as <- <-. split; [|now apply AudioOk_refl].
    apply (Inv_frame s); auto; apply HI.
  - destruct (Qle_bool 0 dt); injection H as <- <-;
      (split; [|now apply AudioOk_refl]); [|exact HI].
    apply (Inv_frame s); auto; apply HI.
  - destruct (nth_error (timers s) i) as [tm|] eqn:Hn.
    + destruct (Qle_bool (deadline tm) (clock s)).
      * eapply fireTimer_ok; eauto.
      * injection H as <- <-. split; [exact HI | now apply AudioOk_refl].
    + injection H as <- <-. split; [exact HI | now apply AudioOk_refl].
  - destruct (nth_error (inFlight s) i) as [rq|] eqn:Hn.
    + destruct (performSpeakResume o rq r
                  (set_inFlight (removeNth i (inFlight s)) s))
        as [s2 ev2] eqn:E.
      injection H as <- <-. eapply netResponds_ok; eauto.
    + injection H as <- <-. split; [exact HI | now apply AudioOk_refl].
Qed.

Lemma Inv_initial (muted : bool) (now : Q) : Inv (initialState muted now).
Proof.
  constructor; simpl; try reflexivity; try congruence; try tauto.
  split; [unfold CACHE_LIMIT; simpl; lia | constructor].
Qed.

Lemma AudioOk_trans (s s1 s2 : State) (a b : list Event) :
  AudioOk s a s1 -> AudioOk s1 b s2 -> AudioOk s (a ++ b) s2.
Proof.
  unfold AudioOk. intros [H1 H2] [H3 H4]. split.
  - apply exclusive_app. rewrite H2. auto.
  - now rewrite liveAfter_app, H2.
Qed.

Theorem run_ok (ins : list (Oracle * Input)) :
  forall s s' ev, run ins s = (s', ev) ->
    Inv s -> Inv s' /\ AudioOk s ev s'.
Proof.
  induction ins as [|[o i] ins IH]; intros s s' ev H HI; simpl in H.
  - injection H as <- <-. split; [exact HI | now apply AudioOk_refl].
  - destruct (step o i s) as [s1 ev1] eqn:E1.
    destruct (run ins s1) as [s2 ev2] eqn:E2.
    injection H as <- <-.
    apply step_ok in E1; [|exact HI]. destruct E1 as [HI1 HA1].
    apply IH in E2; [|exact HI1]. destruct E2 as [HI2 HA2].
    split; [exact HI2 | eapply AudioOk_trans; eauto].
Qed.

(** ** What the drain loop leaves alone *)

Lemma sameSetting_refl (s : State) : sameSetting s s.
Proof. repeat split. Qed.

Lemma sameSetting_trans (s s1 s2 : State) :
  sameSetting s s1 -> sameSetting s1 s2 -> sameSetting s s2.
Proof.
  unfold sameSetting.
  intros (A1 & A2 & A3 & A4 & A5) (B1 & B2 & B3 & B4 & B5).
  repeat split; congruence.
Qed.

Lemma runRequest_setting (o : Oracle) (r : Request) (s : State) :
  forall s' ev, runRequest o r s = (s', ev) -> sameSetting s s'.
Proof.
  intros s' ev H. unfold runRequest in H.
  destruct (performSpeak o r s) as [[c s1] ev1] eqn:E.
  apply performSpeak_spec in E.
  destruct E as (_ & H1 & H2 & H3 & _ & _ & H4 & _ & H5 & _).
  destruct c; injection H as <- <-; repeat split; assumption.
Qed.

Lemma processQueue_setting (o : Oracle) (s : State) :
  forall s' ev, processQueue o s = (s', ev) -> sameSetting s s'.
Proof.
  intros s' ev H. unfold processQueue in H.
  destruct (requestQueue s) as [|request rest].
  - injection H as <- <-. repeat split.
  - match type of H with
    | (if ?b then _ else _) = _ => destruct b
    end.
    + injection H as <- <-. repeat split.
    + apply runRequest_setting in H. exact H.
Qed.

Lemma speakText_setting (o : Oracle) (t : string) (lang rt : option string)
    (s : State) :
  forall s' ev, speakText o t lang rt s = (s', ev) -> sameSetting s s'.
Proof.
  intros s' ev H. unfold speakText in H.
  destruct (negb (isReady s) || negb (Js.truthy t) || isMuted s)%bool.
  { injection H as <- <-. apply sameSetting_refl. }
  cbv zeta in H.
  match type of H with
  | (if ?b then _ else _) = _ => destruct b
  end.
  - apply processQueue_setting in H. exact H.
  - injection H as <- <-. repeat split.
Qed.

Lemma fireTimer_setting (o : Oracle) (a : TimerAction) (s : State) :
  forall s' ev, fireTimer o a s = (s', ev) -> sameSetting s s'.
Proof.
  intros s' ev H. destruct a as [r| |r|]; unfold fireTimer in H.
  - now apply runRequest_setting in H.
  - now apply processQueue_setting in H.
  - destruct (List.length (requestQueue s) <? RETRY_QUEUE_LIMIT)%nat.
    + cbv zeta in H.
      match type of H with
      | (if ?b then _ else _) = _ => destruct b
      end.
      * apply processQueue_setting in H. exact H.
      * injection H as <- <-. repeat split.
    + injection H as <- <-. repeat split.
  - injection H as <- <-. repeat split.
Qed.



Lemma tl_skipn {A : Type} (n : nat) (l : list A) :
  tl (skipn n l) = skipn (S n) l.
Proof.
  revert l; induction n as [|n IH]; intros [|x l]; try reflexivity.
  simpl skipn at 1. rewrite IH. reflexivity.
Qed.

Lemma putAll_last (kvs : list (string * string)) :
  NoDup (JsMap.keys kvs) ->
  putAll kvs JsMap.empty = skipn (List.length kvs - CACHE_LIMIT) kvs.
Proof.
  induction kvs as [|[k v] kvs IH] using rev_ind; intros Hnd.
  - reflexivity.
  - unfold putAll in *. rewrite fold_left_app. simpl.
    rewrite keys_app in Hnd.
    assert (Hnd' : NoDup (JsMap.keys kvs)).
    { pose proof (NoDup_remove_1 _ _ _ Hnd) as H1.
      now rewrite app_nil_r in H1. }
    assert (Hk : ~ In k (JsMap.keys kvs)).
    { apply NoDup_remove_2 in Hnd. now rewrite app_nil_r in Hnd. }
    rewrite (IH Hnd').
    assert (Habs : JsMap.get k (skipn (List.length kvs - CACHE_LIMIT) kvs) = None).
    { apply get_None_keys. intros Hin. apply Hk.
      unfold JsMap.keys in *. apply in_map_iff in Hin.
      destruct Hin as (x & Hx & Hin). apply in_map_iff. exists x.
      split; [exact Hx|].
      rewrite <- (firstn_skipn (List.length kvs - CACHE_LIMIT) kvs).
      apply in_or_app. now right. }
    rewrite (cachePut_absent _ _ _ Habs).
    unfold JsMap.size. rewrite length_skipn, length_app. simpl List.length.
    unfold CACHE_LIMIT in *.
    destruct (Nat.ltb_spec (List.length kvs - (List.length kvs - 50))
                50) as [Hlt|Hge].
    + replace (List.length kvs - 50) with 0 by lia.
      replace (List.length kvs + 1 - 50) with 0 by lia.
      reflexivity.
    + rewrite tl_skipn.
      replace (List.length kvs + 1 - 50)
        with (S (List.length kvs - 50)) by lia.
      rewrite skipn_app.
      replace (S (List.length kvs - 50) - List.length kvs) with 0 by lia.
      reflexivity.
Qed.

Lemma runFrom_ok (muted : bool) (now : Q) (ins : list (Oracle * Input)) :
  Inv (fst (runFrom muted now ins)) /\
  exclusive [] (snd (runFrom muted now ins)).
Proof.
  unfold runFrom.
  destruct (run ins (initialState muted now)) as [s tr] eqn:E.
  apply run_ok in E; [|apply Inv_initial].
  destruct E as [HI [HA _]]. split; [exact HI | exact HA].
Qed.

(** ** Where requests come from *)

Lemma netInputs_app (a b : list Event) :
  netInputs (a ++ b) = netInputs a ++ netInputs b.
Proof. unfold netInputs. apply flat_map_app. Qed.

Lemma pending_iff (s : State) (x : Request) :
  In x (pending s) <->
  In x (requestQueue s) \/ In x (inFlight s) \/
  exists tm, In tm (timers s) /\ In x (timerRequests tm).
Proof.
  unfold pending. rewrite !in_app_iff, in_flat_map. reflexivity.
Qed.

Lemma handleError_timers (o : Oracle) (r : Request) (st : option Z)
    (s : State) (tm : Timer) (x : Request) :
  In tm (timers (handleError o r st s)) -> In x (timerRequests tm) ->
  In tm (timers s) \/ x = r.
Proof.
  unfold handleError, addTimer.
  destruct st as [code|]; simpl; [|auto].
  destruct (code =? 429)%Z; simpl.
  - rewrite in_app_iff. intros [H|[<-|[]]]; [auto|].
    simpl. intros [<-|[]]. now right.
  - destruct (code =? 401)%Z; simpl; [|auto].
    destruct (3 <? S (retryCount s))%nat; simpl; [|auto].
    rewrite in_app_iff. intros [H|[<-|[]]]; [auto|]. intros [].
Qed.

Lemma performSpeak_pending (o : Oracle) (r : Request) (s : State) :
  forall c s' ev, performSpeak o r s = (c, s', ev) ->
    (forall x, In x (pending s') -> In x (pending s) \/ x = r) /\
    (forall t, In t (netInputs ev) -> t = text r).
Proof.
  intros c s' ev H. split.
  - apply performSpeak_spec in H.
    destruct H as (_ & _ & _ & _ & Hq & _ & _ & Ht & _ & Hf & Hw).
    intros x. rewrite !pending_iff, Hq, Ht.
    destruct c.
    + rewrite (Hf eq_refl). auto.
    + destruct (Hw eq_refl) as (-> & _). rewrite in_app_iff. simpl.
      intros [Hx|[[Hx|[<-|[]]]|Hx]]; auto.
  - revert H.
    unfold performSpeak, playStoredAudio, safeStopAudio, createAsync,
      handleError.
    open_state s; simpl; intros H;
      repeat (break_in H; simpl in H);
      injection H as <- <- <-; simpl; intros t Ht;
      repeat match goal with
        | Hin : _ \/ _ |- _ => destruct Hin as [Hin|Hin]
        | Hin : False |- _ => destruct Hin
        end; auto.
Qed.

Lemma performSpeakResume_pending (o : Oracle) (r : Request) (res : NetResult)
    (s : State) :
  forall s' ev, performSpeakResume o r res s = (s', ev) ->
    (forall x, In x (pending s') -> In x (pending s) \/ x = r) /\
    netInputs ev = [].
Proof.
  intros s' ev H.
  assert (E : forall st, handleError o r st s = s' ->
    forall x, In x (pending s') -> In x (pending s) \/ x = r).
  { intros st <- x. rewrite !pending_iff.
    destruct (handleError_spec o r st s)
      as (_ & _ & _ & _ & Hq & _ & _ & Hf & _).
    rewrite Hq, Hf. intros [Hx|[Hx|(tm & Htm & Hx)]]; auto.
    destruct (handleError_timers _ _ _ _ _ _ Htm Hx); eauto 6. }
  unfold performSpeakResume in H.
  destruct res as [[content|]|st].
  - destruct (isMuted s). { injection H as <- <-. auto. }
    destruct (Js.truthy content).
    + unfold createAsync in H. cbv zeta in H.
      destruct (createOk o (wavUri content)); injection H as <- <-;
        (split; [|reflexivity]); intros x; rewrite !pending_iff; simpl; auto.
    + injection H as <- <-. split; [now apply (E None)|reflexivity].
  - destruct (isMuted s). { injection H as <- <-. auto. }
    injection H as <- <-. split; [now apply (E None)|reflexivity].
  - injection H as <- <-. split; [now apply (E st)|reflexivity].
Qed.

Lemma pending_scheduleDrain (s : State) (x : Request) :
  In x (pending (scheduleDrain s)) <-> In x (pending s).
Proof.
  unfold pending, scheduleDrain, addTimer. simpl.
  rewrite flat_map_app. simpl. now rewrite !app_nil_r.
Qed.

Lemma runRequest_pending (o : Oracle) (r : Request) (s : State) :
  forall s' ev, runRequest o r s = (s', ev) ->
    (forall x, In x (pending s') -> In x (pending s) \/ x = r) /\
    (forall t, In t (netInputs ev) -> t = text r).
Proof.
  intros s' ev H. unfold runRequest in H.
  destruct (performSpeak o r s) as [[c s1] ev1] eqn:E.
  apply performSpeak_pending in E. destruct E as [E1 E2].
  destruct c; injection H as <- <-; (split; [|exact E2]).
  - intros x Hx. apply E1. apply (proj1 (pending_scheduleDrain _ _)). exact Hx.
  - exact E1.
Qed.

Lemma processQueue_pending (o : Oracle) (s : State) :
  forall s' ev, processQueue o s = (s', ev) ->
    (forall x, In x (pending s') -> In x (pending s)) /\
    (forall t, In t (netInputs ev) ->
       exists x, In x (pending s) /\ t = text x).
Proof.
  intros s' ev H. unfold processQueue in H.
  destruct (requestQueue s) as [|request rest] eqn:Hq.
  - injection H as <- <-. split; [|intros t []].
    intros x. rewrite !pending_iff. simpl. now rewrite Hq.
  - assert (Hreq : In request (pending s)).
    { apply pending_iff. left. rewrite Hq. now left. }
    match type of H with
    | (if ?b then _ else _) = _ => destruct b
    end.
    + injection H as <- <-. split; [|intros t []].
      intros x. rewrite !pending_iff. unfold addTimer. simpl. rewrite Hq.
      intros [Hx|[Hx|(tm & Htm & Hx)]]; [left; now right | auto |].
      apply in_app_iff in Htm. destruct Htm as [Htm|[<-|[]]]; [eauto|].
      simpl in Hx. destruct Hx as [<-|[]]. left. now left.
    + apply runRequest_pending in H. destruct H as [H1 H2]. split.
      * intros x Hx. destruct (H1 x Hx) as [Hp| ->]; [|exact Hreq].
        revert Hp. rewrite !pending_iff. simpl. rewrite Hq.
        intros [Hp|Hp]; [left; now right | auto].
      * intros t Ht. exists request. split; [exact Hreq | now apply H2].
Qed.

Lemma truncateText_spec (t : string) : truncationOf t (truncateText t).
Proof.
  unfold truncationOf, truncateText, TEXT_LIMIT.
  destruct (Nat.ltb_spec 300 (String.length t)); [right | left]; auto.
Qed.

Lemma fromCall_app_l (a b : list (Oracle * Input)) (x : string) :
  fromCall a x -> fromCall (a ++ b) x.
Proof.
  intros (t & Ht & H). exists t. split; [|exact H].
  unfold callTexts in *. rewrite flat_map_app, in_app_iff. now left.
Qed.

Lemma fromCall_app_r (a b : list (Oracle * Input)) (x : string) :
  fromCall b x -> fromCall (a ++ b) x.
Proof.
  intros (t & Ht & H). exists t. split; [|exact H].
  unfold callTexts in *. rewrite flat_map_app, in_app_iff. now right.
Qed.

Lemma speakText_pending (o : Oracle) (t : string) (lang rt : option string)
    (s : State) :
  forall s' ev, speakText o t lang rt s = (s', ev) ->
    (forall x, In x (pending s') ->
       In x (pending s) \/ fromCall [(o, CallSpeakText t lang rt)] (text x)) /\
    (forall u, In u (netInputs ev) ->
       (exists x, In x (pending s) /\ u = text x) \/
       fromCall [(o, CallSpeakText t lang rt)] u).
Proof.
  intros s' ev H. unfold speakText in H.
  destruct (negb (isReady s) || negb (Js.truthy t) || isMuted s)%bool eqn:G.
  { injection H as <- <-. split; [auto | intros u []]. }
  assert (Ht : t <> "").
  { unfold Js.truthy in G. intros ->. simpl in G.
    destruct (isReady s); discriminate. }
  cbv zeta in H.
  set (req := mkRequest (truncateText t) _ rt) in H.
  set (s1 := set_requestQueue (requestQueue s ++ [req]) s) in H.
  assert (Hreq : fromCall [(o, CallSpeakText t lang rt)] (text req)).
  { exists t. simpl. repeat split; auto. apply truncateText_spec. }
  assert (Hs1 : forall x, In x (pending s1) -> In x (pending s) \/ x = req).
  { intros x. unfold s1. rewrite !pending_iff. simpl. rewrite in_app_iff.
    simpl. intros [[Hx|[<-|[]]]|Hx]; auto. }
  match type of H with
  | (if ?b then _ else _) = _ => destruct b
  end.
  - apply processQueue_pending in H. destruct H as [H1 H2]. split.
    + intros x Hx. destruct (Hs1 x (H1 x Hx)) as [Hp| ->]; auto.
    + intros u Hu. destruct (H2 u Hu) as (x & Hx & ->).
      destruct (Hs1 x Hx) as [Hp| ->]; eauto.
  - injection H as <- <-. split; [|intros u []].
    intros x Hx. destruct (Hs1 x Hx) as [Hp| ->]; auto.
Qed.

Lemma removeNth_pending_timers (n : nat) (tm : Timer) (s : State) (x : Request) :
  In x (pending (set_timers (removeNth n (timers s)) s)) -> In x (pending s).
Proof.
  rewrite !pending_iff. simpl.
  intros [Hx|[Hx|(tm' & Htm & Hx)]]; auto.
  right. right. exists tm'. split; [|exact Hx]. eapply removeNth_In; eauto.
Qed.

Lemma fireTimer_pending (o : Oracle) (n : nat) (tm : Timer) (s : State) :
  forall s' ev,
    nth_error (timers s) n = Some tm ->
    fireTimer o (action tm) (set_timers (removeNth n (timers s)) s) = (s', ev) ->
    (forall x, In x (pending s') -> In x (pending s)) /\
    (forall u, In u (netInputs ev) ->
       exists x, In x (pending s) /\ u = text x).
Proof.
  intros s' ev Hn H.
  set (s1 := set_timers (removeNth n (timers s)) s) in *.
  assert (Hs1 : forall x, In x (pending s1) -> In x (pending s))
    by (intros x; apply (removeNth_pending_timers n tm)).
  assert (Htm : forall r, In r (timerRequests tm) -> In r (pending s)).
  { intros r Hr. apply pending_iff. right. right. exists tm.
    split; [eapply nth_error_In; eauto | exact Hr]. }
  unfold timerRequests in Htm.
  destruct (action tm) as [r| |r|]; unfold fireTimer in H.
  - apply runRequest_pending in H. destruct H as [H1 H2]. split.
    + intros x Hx. destruct (H1 x Hx) as [Hp| ->]; auto. apply Htm. now left.
    + intros u Hu. exists r. split; [apply Htm; now left | now apply H2].
  - apply processQueue_pending in H. destruct H as [H1 H2]. split.
    + intros x Hx. auto.
    + intros u Hu. destruct (H2 u Hu) as (x & Hx & ->). eauto.
  - destruct (List.length (requestQueue s1) <? RETRY_QUEUE_LIMIT)%nat.
    + cbv zeta in H.
      set (s2 := set_requestQueue (requestQueue s1 ++ [r]) s1) in H.
      assert (Hs2 : forall x, In x (pending s2) -> In x (pending s)).
      { intros x. unfold s2. rewrite (pending_iff (set_requestQueue _ _)).
        simpl. rewrite in_app_iff. simpl.
        intros [[Hx|[<-|[]]]|Hx].
        - apply Hs1. apply pending_iff. auto.
        - apply Htm. now left.
        - apply Hs1. apply pending_iff. auto. }
      match type of H with
      | (if ?b then _ else _) = _ => destruct b
      end.
      * apply processQueue_pending in H. destruct H as [H1 H2]. split.
        -- intros x Hx. auto.
        -- intros u Hu. destruct (H2 u Hu) as (x & Hx & ->). eauto.
      * injection H as <- <-. split; [exact Hs2 | intros u []].
    + injection H as <- <-. split; [exact Hs1 | intros u []].
  - injection H as <- <-. split; [|intros u []].
    intros x Hx. apply Hs1. revert Hx. rewrite !pending_iff. simpl. auto.
Qed.

Lemma step_pending (o : Oracle) (i : Input) (s : State) :
  forall s' ev, step o i s = (s', ev) ->
    (forall x, In x (pending s') ->
       In x (pending s) \/ fromCall [(o, i)] (text x)) /\
    (forall u, In u (netInputs ev) ->
       (exists x, In x (pending s) /\ u = text x) \/ fromCall [(o, i)] u).
Proof.
  intros s' ev H.
  assert (Same : forall s0 : State,
    requestQueue s0 = requestQueue s -> inFlight s0 = inFlight s ->
    timers s0 = timers s ->
    (forall x, In x (pending s0) ->
       In x (pending s) \/ fromCall [(o, i)] (text x)) /\
    (forall u, In u (netInputs []) ->
       (exists x, In x (pending s) /\ u = text x) \/ fromCall [(o, i)] u)).
  { intros s0 E1 E2 E3. split; [|intros u []].
    intros x. unfold pending. rewrite E1, E2, E3. auto. }
  destruct i; simpl in H.
  - now apply speakText_pending in H.
  - unfold stopAudio, safeStopAudio in H.
    destruct (soundRef s); injection H as <- <-; split;
      try (intros u []); intros x; unfold pending; simpl; auto.
  - destruct (soundRef s); injection H as <- <-; split;
      try (intros u []); intros x; unfold pending; simpl; auto.
  - injection H as <- <-. now apply Same.
  - injection H as <- <-. now apply Same.
  - injection H as <- <-. now apply Same.
  - destruct (Qle_bool 0 dt); injection H as <- <-; now apply Same.
  - destruct (nth_error (timers s) i) as [tm|] eqn:Hn.
    + destruct (Qle_bool (deadline tm) (clock s)).
      * eapply fireTimer_pending in H; [|exact Hn].
        destruct H as [H1 H2]. split; [auto|].
        intros u Hu. left. auto.
      * injection H as <- <-. now apply Same.
    + injection H as <- <-. now apply Same.
  - destruct (nth_error (inFlight s) i) as [rq|] eqn:Hn.
    + destruct (performSpeakResume o rq r
                  (set_inFlight (removeNth i (inFlight s)) s))
        as [s2 ev2] eqn:E.
      injection H as <- <-.
      apply performSpeakResume_pending in E. destruct E as [E1 E2].
      assert (Hrq : In rq (pending s)).
      { apply pending_iff. right. left. eapply nth_error_In; eauto. }
      split.
      * intros x Hx. left.
        apply (proj1 (pending_scheduleDrain _ _)) in Hx.
        destruct (E1 x Hx) as [Hp| ->]; [|exact Hrq].
        revert Hp. rewrite !pending_iff. simpl.
        intros [Hp|[Hp|Hp]]; auto.
        right. left. eapply removeNth_In; eauto.
      * rewrite E2. intros u [].
    + injection H as <- <-. now apply Same.
Qed.

Lemma run_pending (ins : list (Oracle * Input)) :
  forall s s' tr, run ins s = (s', tr) ->
    (forall x, In x (pending s') ->
       In x (pending s) \/ fromCall ins (text x)) /\
    (forall u, In u (netInputs tr) ->
       (exists x, In x (pending s) /\ u = text x) \/ fromCall ins u).
Proof.
  induction ins as [|[o i] ins IH]; intros s s' tr H; simpl in H.
  - injection H as <- <-. split; [auto | intros u []].
  - destruct (step o i s) as [s1 ev1] eqn:E1.
    destruct (run ins s1) as [s2 ev2] eqn:E2.
    injection H as <- <-.
    apply step_pending in E1. destruct E1 as [A1 A2].
    apply IH in E2. destruct E2 as [B1 B2].
    change ((o, i) :: ins) with ([(o, i)] ++ ins).
    split.
    + intros x Hx. destruct (B1 x Hx) as [Hp|Hp].
      * destruct (A1 x Hp) as [Hq|Hq]; [auto|].
        right. now apply fromCall_app_l.
      * right. now apply fromCall_app_r.
    + intros u Hu. rewrite netInputs_app, in_app_iff in Hu.
      destruct Hu as [Hu|Hu].
      * destruct (A2 u Hu) as [Hq|Hq]; [auto|].
        right. now apply fromCall_app_l.
      * destruct (B2 u Hu) as [(x & Hx & ->)|Hq].
        -- destruct (A1 x Hx) as [Hq|Hq]; [eauto|].
           right. now apply fromCall_app_l.
        -- right. now apply fromCall_app_r.
Qed.

(** ** Requests and HTTP calls, exactly *)

Lemma performSpeak_net (o : Oracle) (r : Request) (s : State) :
  forall c s' ev, performSpeak o r s = (c, s', ev) ->
    forall e, In e ev -> isNet e = true -> e = netEvent r.
Proof.
  intros c s' ev H. revert H.
  unfold performSpeak, playStoredAudio, safeStopAudio, createAsync,
    handleError, netEvent.
  open_state s; simpl; intros H;
    repeat (break_in H; simpl in H);
    injection H as <- <- <-; simpl; intros e He Hn;
    repeat match goal with
      | Hin : _ \/ _ |- _ => destruct Hin as [Hin|Hin]
      | Hin : False |- _ => destruct Hin
      end; subst; try discriminate; reflexivity.
Qed.

Lemma runRequest_net (o : Oracle) (r : Request) (s : State) :
  forall s' ev, runRequest o r s = (s', ev) ->
    forall e, In e ev -> isNet e = true -> e = netEvent r.
Proof.
  intros s' ev H. unfold runRequest in H.
  destruct (performSpeak o r s) as [[c s1] ev1] eqn:E.
  pose proof (performSpeak_net _ _ _ _ _ _ E) as N.
  destruct c; injection H as <- <-; exact N.
Qed.

Lemma processQueue_net (o : Oracle) (s : State) :
  forall s' ev, processQueue o s = (s', ev) ->
    forall e, In e ev -> isNet e = true ->
      exists x, In x (pending s) /\ e = netEvent x.
Proof.
  intros s' ev H. unfold processQueue in H.
  destruct (requestQueue s) as [|request rest] eqn:Hq.
  - injection H as <- <-. intros e [].
  - match type of H with
    | (if ?b then _ else _) = _ => destruct b
    end.
    + injection H as <- <-. intros e [].
    + intros e He Hn. exists request. split.
      * apply pending_iff. left. rewrite Hq. now left.
      * eapply runRequest_net; eauto.
Qed.

Lemma speakText_origin (o : Oracle) (t : string) (lang rt : option string)
    (s : State) :
  forall s' ev, speakText o t lang rt s = (s', ev) ->
    (forall x, In x (pending s') -> origin (CallSpeakText t lang rt) s x) /\
    (forall e, In e ev -> isNet e = true ->
       exists x, origin (CallSpeakText t lang rt) s x /\ e = netEvent x).
Proof.
  intros s' ev H. unfold speakText in H.
  destruct (negb (isReady s) || negb (Js.truthy t) || isMuted s)%bool eqn:G.
  { injection H as <- <-. split; [now left | intros e []]. }
  assert (Ht : Js.truthy t = true).
  { destruct (Js.truthy t); [reflexivity|].
    destruct (isReady s); discriminate. }
  cbv zeta in H.
  change (mkRequest (truncateText t)
            match lang with
            | Some l => if Js.truthy l then l else "en"
            | None => "en"
            end rt) with (newRequest t lang rt) in H.
  set (s1 := set_requestQueue (requestQueue s ++ [newRequest t lang rt]) s) in H.
  assert (Hs1 : forall x, In x (pending s1) ->
                          origin (CallSpeakText t lang rt) s x).
  { intros x. unfold s1. rewrite (pending_iff (set_requestQueue _ _)). simpl.
    rewrite in_app_iff. simpl.
    intros [[Hx|[<-|[]]]|Hx].
    - left. apply pending_iff. auto.
    - right. eauto 6.
    - left. apply pending_iff. auto. }
  match type of H with
  | (if ?b then _ else _) = _ => destruct b
  end.
  - pose proof (processQueue_pending _ _ _ _ H) as [H1 _].
    pose proof (processQueue_net _ _ _ _ H) as H2. split.
    + intros x Hx. auto.
    + intros e He Hn. destruct (H2 e He Hn) as (x & Hx & ->). eauto.
  - injection H as <- <-. split; [exact Hs1 | intros e []].
Qed.

Lemma fireTimer_net (o : Oracle) (n : nat) (tm : Timer) (s : State) :
  forall s' ev,
    nth_error (timers s) n = Some tm ->
    fireTimer o (action tm) (set_timers (removeNth n (timers s)) s) = (s', ev) ->
    forall e, In e ev -> isNet e = true ->
      exists x, In x (pending s) /\ e = netEvent x.
Proof.
  intros s' ev Hn H.
  set (s1 := set_timers (removeNth n (timers s)) s) in *.
  assert (Hs1 : forall x, In x (pending s1) -> In x (pending s))
    by (intros x; apply (removeNth_pending_timers n tm)).
  assert (Htm : forall r, In r (timerRequests tm) -> In r (pending s)).
  { intros r Hr. apply pending_iff. right. right. exists tm.
    split; [eapply nth_error_In; eauto | exact Hr]. }
  unfold timerRequests in Htm.
  destruct (action tm) as [r| |r|]; unfold fireTimer in H.
  - intros e He Hne. exists r. split; [apply Htm; now left|].
    eapply runRequest_net; eauto.
  - intros e He Hne.
    destruct (processQueue_net _ _ _ _ H e He Hne) as (x & Hx & ->). eauto.
  - destruct (List.length (requestQueue s1) <? RETRY_QUEUE_LIMIT)%nat.
    + cbv zeta in H.
      set (s2 := set_requestQueue (requestQueue s1 ++ [r]) s1) in H.
      assert (Hs2 : forall x, In x (pending s2) -> In x (pending s)).
      { intros x. unfold s2. rewrite (pending_iff (set_requestQueue _ _)).
        simpl. rewrite in_app_iff. simpl.
        intros [[Hx|[<-|[]]]|Hx].
        - apply Hs1. apply pending_iff. auto.
        - apply Htm. now left.
        - apply Hs1. apply pending_iff. auto. }
      match type of H with
      | (if ?b then _ else _) = _ => destruct b
      end.
      * intros e He Hne.
        destruct (processQueue_net _ _ _ _ H e He Hne) as (x & Hx & ->). eauto.
      * injection H as <- <-. intros e [].
    + injection H as <- <-. intros e [].
  - injection H as <- <-. intros e [].
Qed.

Lemma performSpeakResume_quiet (o : Oracle) (r : Request) (res : NetResult)
    (s : State) :
  forall s' ev, performSpeakResume o r res s = (s', ev) ->
    forall e, In e ev -> isNet e = false.
Proof.
  intros s' ev H. apply performSpeakResume_pending in H.
  destruct H as [_ H]. intros e He.
  destruct e; try reflexivity.
  apply In_split in He. destruct He as (a & b & ->).
  rewrite netInputs_app in H. simpl in H.
  destruct (netInputs a); discriminate.
Qed.

Lemma step_origin (o : Oracle) (i : Input) (s : State) :
  forall s' ev, step o i s = (s', ev) ->
    (forall x, In x (pending s') -> origin i s x) /\
    (forall e, In e ev -> isNet e = true ->
       exists x, origin i s x /\ e = netEvent x).
Proof.
  intros s' ev H.
  assert (P : forall x, In x (pending s') -> origin i s x).
  { intros x Hx. destruct (step_pending _ _ _ _ _ H) as [H1 _].
    destruct i; try (destruct (H1 x Hx) as [Hp|(t & [] & _)]; now left).
    simpl in H. now apply (proj1 (speakText_origin _ _ _ _ _ _ _ H)). }
  split; [exact P|].
  destruct i; simpl in H.
  - now apply (proj2 (speakText_origin _ _ _ _ _ _ _ H)).
  - unfold stopAudio, safeStopAudio in H.
    destruct (soundRef s); injection H as <- <-; simpl;
      intros e He Hn;
      repeat (destruct He as [<-|He]; [discriminate|]); destruct He.
  - destruct (soundRef s); injection H as <- <-; simpl;
      intros e He Hn;
      repeat (destruct He as [<-|He]; [discriminate|]); destruct He.
  - injection H as <- <-. intros e [].
  - injection H as <- <-. intros e [].
  - injection H as <- <-. intros e [].
  - destruct (Qle_bool 0 dt); injection H as <- <-; intros e [].
  - destruct (nth_error (timers s) i) as [tm|] eqn:Hn.
    + destruct (Qle_bool (deadline tm) (clock s)).
      * intros e He Hne.
        destruct (fireTimer_net _ _ _ _ _ _ Hn H e He Hne) as (x & Hx & ->).
        exists x. split; [now left | reflexivity].
      * injection H as <- <-. intros e [].
    + injection H as <- <-. intros e [].
  - destruct (nth_error (inFlight s) i) as [rq|] eqn:Hn.
    + destruct (performSpeakResume o rq r
                  (set_inFlight (removeNth i (inFlight s)) s))
        as [s2 ev2] eqn:E.
      injection H as <- <-. intros e He Hne.
      rewrite (performSpeakResume_quiet _ _ _ _ _ _ E e He) in Hne.
      discriminate.
    + injection H as <- <-. intros e [].
Qed.

(** A property of requests that every request [speakText] pushes has
    holds for all requests held along a run, and every HTTP call of the
    run is the call for a request with that property. *)
Lemma run_requests (P : Request -> Prop) :
  (forall t lang rt, Js.truthy t = true -> P (newRequest t lang rt)) ->
  forall ins s s' tr, run ins s = (s', tr) ->
    (forall x, In x (pending s) -> P x) ->
    (forall x, In x (pending s') -> P x) /\
    (forall e, In e tr -> isNet e = true -> exists x, P x /\ e = netEvent x).
Proof.
  intros HP. induction ins as [|[o i] ins IH]; intros s s' tr H Hs; simpl in H.
  - injection H as <- <-. split; [exact Hs | intros e []].
  - destruct (step o i s) as [s1 ev1] eqn:E1.
    destruct (run ins s1) as [s2 ev2] eqn:E2.
    injection H as <- <-.
    apply step_origin in E1. destruct E1 as [A1 A2].
    assert (Po : forall x, origin i s x -> P x).
    { intros x [Hx|(t & lang & rt & _ & Ht & ->)]; auto. }
    assert (Hs1 : forall x, In x (pending s1) -> P x) by auto.
    destruct (IH _ _ _ E2 Hs1) as [B1 B2]. split; [exact B1|].
    intros e He Hn. apply in_app_iff in He. destruct He as [He|He].
    + destruct (A2 e He Hn) as (x & Hx & ->). eauto.
    + auto.
Qed.

(** ** Strings *)

Lemma length_append (a b : string) :
  String.length (a ++ b) = String.length a + String.length b.
Proof. induction a as [|c a IH]; simpl; [reflexivity | now rewrite IH]. Qed.

Lemma length_substring_le (n : nat) (x : string) :
  String.length (String.substring 0 n x) <= n.
Proof.
  revert x; induction n as [|n IH]; intros [|c x]; simpl; try lia.
  specialize (IH x). lia.
Qed.

Lemma truncateText_length (t : string) :
  String.length (truncateText t) <= 303.
Proof.
  unfold truncateText, TEXT_LIMIT.
  destruct (Nat.ltb_spec 300 (String.length t)) as [H|H]; [|lia].
  rewrite length_append. pose proof (length_substring_le 300 t). simpl. lia.
Qed.

Lemma truncateText_nonempty (t : string) :
  Js.truthy t = true -> truncateText t <> "".
Proof.
  unfold truncateText, TEXT_LIMIT. intros Ht.
  destruct (300 <? String.length t)%nat.
  - destruct t as [|c t]; [discriminate|]. simpl. discriminate.
  - intros ->. discriminate.
Qed.

Lemma defaultLanguage_nonempty (lang : option string) :
  defaultLanguage lang <> "".
Proof.
  unfold defaultLanguage. destruct lang as [l|]; [|discriminate].
  destruct (Js.truthy l) eqn:E; [|discriminate].
  intros ->. discriminate.
Qed.

Lemma newRequest_wellFormed (t : string) (lang rt : option string) :
  Js.truthy t = true -> wellFormed (newRequest t lang rt).
Proof.
  intros Ht. unfold wellFormed, newRequest. simpl.
  split; [now apply truncateText_nonempty|].
  split; [apply truncateText_length | apply defaultLanguage_nonempty].
Qed.

Lemma beforeDash_dashFree (x : string) : dashFree (Js.beforeDash x) = true.
Proof.
  induction x as [|c x IH]; simpl; [reflexivity|].
  destruct (Ascii.eqb c "-") eqn:E; simpl; [reflexivity|].
  now rewrite E, IH.
Qed.

Lemma beforeDash_fixed (x : string) :
  dashFree x = true -> Js.beforeDash x = x.
Proof.
  induction x as [|c x IH]; simpl; [reflexivity|].
  destruct (Ascii.eqb c "-"); simpl; [discriminate|].
  intros H. now rewrite IH.
Qed.

Lemma beforeDash_region (x region : string) :
  dashFree x = true -> Js.beforeDash (x ++ String "-" region) = x.
Proof.
  induction x as [|c x IH]; simpl; [reflexivity|].
  destruct (Ascii.eqb c "-"); simpl; [discriminate|].
  intros H. now rewrite IH.
Qed.

Lemma baseLanguage_dashFree (l : string) : dashFree (baseLanguage l) = true.
Proof.
  unfold baseLanguage. cbv zeta.
  destruct (Js.truthy (Js.beforeDash l)); [apply beforeDash_dashFree|reflexivity].
Qed.

Lemma baseLanguage_nonempty (l : string) : baseLanguage l <> "".
Proof.
  unfold baseLanguage. cbv zeta.
  destruct (Js.truthy (Js.beforeDash l)) eqn:E; [|discriminate].
  intros H. rewrite H in E. discriminate.
Qed.

Lemma baseLanguage_fixed (l : string) :
  l <> "" -> dashFree l = true -> baseLanguage l = l.
Proof.
  intros Hl Hd. unfold baseLanguage. cbv zeta.
  rewrite (beforeDash_fixed _ Hd).
  destruct l; [congruence | reflexivity].
Qed.

(** ** The spacing of HTTP calls *)

Lemma stamped_same (s s' : State) :
  lastApiCallTimestamp s' = lastApiCallTimestamp s -> stamped s [] s'.
Proof. intros H. right. split; [reflexivity | exact H]. Qed.

Lemma performSpeak_stamped (o : Oracle) (r : Request) (s : State) :
  forall c s' ev, performSpeak o r s = (c, s', ev) -> stamped s ev s'.
Proof.
  intros c s' ev H. revert H.
  unfold performSpeak, playStoredAudio, safeStopAudio, createAsync,
    handleError, stamped.
  open_state s; simpl; intros H;
    repeat (break_in H; simpl in H);
    injection H as <- <- <-; simpl; auto.
Qed.

Lemma runRequest_stamped (o : Oracle) (r : Request) (s : State) :
  forall s' ev, runRequest o r s = (s', ev) -> stamped s ev s'.
Proof.
  intros s' ev H. unfold runRequest in H.
  destruct (performSpeak o r s) as [[c s1] ev1] eqn:E.
  apply performSpeak_stamped in E.
  destruct c; injection H as <- <-; exact E.
Qed.

Lemma no_resume_throttled (s : State) :
  filter isDrainTimer (timers s) = [] -> throttled s.
Proof.
  intros H tm r Hin Ha. exfalso.
  assert (Hf : In tm (filter isDrainTimer (timers s))).
  { apply filter_In. split; [exact Hin|]. unfold isDrainTimer. now rewrite Ha. }
  rewrite H in Hf. exact Hf.
Qed.

Lemma throttled_frame (s s' : State) :
  (forall tm r, In tm (timers s') -> action tm = ResumeThrottled r ->
                In tm (timers s)) ->
  lastApiCallTimestamp s' = lastApiCallTimestamp s ->
  throttled s -> throttled s'.
Proof.
  intros Ht Hl H tm r Hin Ha. rewrite Hl. apply (H tm r); [|exact Ha].
  now apply (Ht tm r).
Qed.

Lemma runRequest_throttled (o : Oracle) (r : Request) (s : State) :
  forall s' ev, runRequest o r s = (s', ev) ->
    suspended s = 0 -> throttled s'.
Proof.
  intros s' ev H H0. destruct (suspended_zero s H0) as [Hd _].
  unfold runRequest in H.
  destruct (performSpeak o r s) as [[c s1] ev1] eqn:E.
  apply performSpeak_spec in E.
  destruct E as (_ & _ & _ & _ & _ & _ & _ & Ht & _).
  intros tm r' Hin Ha. exfalso.
  assert (Hin' : In tm (timers s)).
  { destruct c; injection H as <- <-.
    - unfold scheduleDrain, addTimer in Hin. simpl in Hin.
      rewrite Ht in Hin. apply in_app_iff in Hin.
      destruct Hin as [Hin|[<-|[]]]; [exact Hin | discriminate].
    - now rewrite Ht in Hin. }
  assert (Hf : In tm (filter isDrainTimer (timers s))).
  { apply filter_In. split; [exact Hin'|]. unfold isDrainTimer. now rewrite Ha. }
  rewrite Hd in Hf. exact Hf.
Qed.

Lemma processQueue_throttled (o : Oracle) (s : State) :
  forall s' ev, processQueue o s = (s', ev) ->
    suspended s = 0 ->
    throttled s' /\ stamped s ev s' /\
    (existsb isNet ev = true ->
     (lastApiCallTimestamp s + 1000 <= clock s)%Q).
Proof.
  intros s' ev H H0. destruct (suspended_zero s H0) as [Hd _].
  unfold processQueue in H.
  destruct (requestQueue s) as [|request rest].
  - injection H as <- <-. split; [|split].
    + now apply no_resume_throttled.
    + now apply stamped_same.
    + discriminate.
  - match type of H with
    | (if ?b then _ else _) = _ => destruct b eqn:Hlt
    end.
    + injection H as <- <-. split; [|split].
      * intros tm r Hin Ha. unfold addTimer in Hin. simpl in Hin.
        apply in_app_iff in Hin. destruct Hin as [Hin|[<-|[]]].
        -- exfalso.
           assert (Hf : In tm (filter isDrainTimer (timers s))).
           { apply filter_In. split; [exact Hin|].
             unfold isDrainTimer. now rewrite Ha. }
           rewrite Hd in Hf. exact Hf.
        -- simpl. lra.
      * now apply stamped_same.
      * discriminate.
    + split; [|split].
      * eapply runRequest_throttled; eauto.
      * apply runRequest_stamped in H. exact H.
      * intros _. unfold Js.lt in Hlt. simpl in Hlt.
        apply negb_false_iff in Hlt. apply Qle_bool_iff in Hlt. lra.
Qed.

Lemma handleError_stamp (o : Oracle) (r : Request) (st : option Z) (s : State) :
  lastApiCallTimestamp (handleError o r st s) = lastApiCallTimestamp s.
Proof.
  unfold handleError, addTimer. destruct st as [code|]; simpl; [|reflexivity].
  destruct (code =? 429)%Z; [reflexivity|].
  destruct (code =? 401)%Z; [|reflexivity].
  destruct (3 <? S (retryCount s))%nat; reflexivity.
Qed.

Lemma performSpeakResume_stamp (o : Oracle) (r : Request) (res : NetResult)
    (s : State) :
  forall s' ev, performSpeakResume o r res s = (s', ev) ->
    lastApiCallTimestamp s' = lastApiCallTimestamp s.
Proof.
  intros s' ev H. unfold performSpeakResume, createAsync in H.
  destruct res as [[content|]|st].
  - destruct (isMuted s); [now injection H as <- <-|].
    destruct (Js.truthy content).
    + cbv zeta in H. destruct (createOk o (wavUri content));
        injection H as <- <-; reflexivity.
    + injection H as <- <-. first [apply handleError_stamp | reflexivity].
  - destruct (isMuted s); [now injection H as <- <-|].
    injection H as <- <-. first [apply handleError_stamp | reflexivity].
  - injection H as <- <-. first [apply handleError_stamp | reflexivity].
Qed.

Lemma speakText_throttled (o : Oracle) (t : string) (lang rt : option string)
    (s : State) :
  forall s' ev, speakText o t lang rt s = (s', ev) ->
    Inv s -> throttled s ->
    throttled s' /\ stamped s ev s' /\
    (existsb isNet ev = true ->
     (lastApiCallTimestamp s + 1000 <= clock s)%Q).
Proof.
  intros s' ev H HI HT. unfold speakText in H.
  destruct (negb (isReady s) || negb (Js.truthy t) || isMuted s)%bool.
  { injection H as <- <-.
    split; [exact HT|]. split; [now apply stamped_same | discriminate]. }
  cbv zeta in H. simpl processingQueue in H.
  destruct (processingQueue s) eqn:Hp; simpl in H.
  - injection H as <- <-.
    split; [|split; [now apply stamped_same | discriminate]].
    apply (throttled_frame s); auto.
  - apply processQueue_throttled in H; [exact H|].
    destruct HI as [I1 _ _ _ _]. rewrite Hp in I1. exact I1.
Qed.

Lemma fireTimer_throttled (o : Oracle) (n : nat) (tm : Timer) (s : State) :
  forall s' ev,
    nth_error (timers s) n = Some tm ->
    Qle_bool (deadline tm) (clock s) = true ->
    fireTimer o (action tm) (set_timers (removeNth n (timers s)) s) = (s', ev) ->
    Inv s -> throttled s ->
    throttled s' /\ stamped s ev s' /\
    (existsb isNet ev = true ->
     (lastApiCallTimestamp s + 1000 <= clock s)%Q).
Proof.
  intros s' ev Hn Hdue H HI HT.
  set (s1 := set_timers (removeNth n (timers s)) s) in *.
  assert (Hs : suspended s1 + (if isDrainTimer tm then 1 else 0) = suspended s).
  { unfold suspended, s1. simpl.
    pose proof (removeNth_filter isDrainTimer n (timers s) tm Hn). lia. }
  assert (HT1 : throttled s1).
  { apply (throttled_frame s); auto.
    intros tm' r' Hin _. unfold s1 in Hin. simpl in Hin.
    eapply removeNth_In; eauto. }
  assert (Hin : In tm (timers s)) by (eapply nth_error_In; eauto).
  apply Qle_bool_iff in Hdue.
  unfold isDrainTimer in Hs.
  destruct (action tm) as [r| |r|] eqn:Ea; unfold fireTimer in H.
  - destruct (Inv_busy s HI ltac:(lia)) as [Hp H1].
    split; [eapply runRequest_throttled; eauto; lia|].
    split; [apply runRequest_stamped in H; exact H|].
    intros _. pose proof (HT tm r Hin Ea). lra.
  - destruct (Inv_busy s HI ltac:(lia)) as [Hp H1].
    apply processQueue_throttled in H; [exact H | lia].
  - destruct (List.length (requestQueue s1) <? RETRY_QUEUE_LIMIT)%nat.
    + cbv zeta in H. simpl processingQueue in H.
      destruct (processingQueue s) eqn:Hp; simpl in H.
      * injection H as <- <-.
        split; [|split; [now apply stamped_same | discriminate]].
        apply (throttled_frame s1); auto.
      * apply processQueue_throttled in H; [exact H|].
        destruct HI as [I1 _ _ _ _]. rewrite Hp in I1.
        unfold suspended in *. simpl in *. lia.
    + injection H as <- <-.
      split; [exact HT1|]. split; [now apply stamped_same | discriminate].
  - injection H as <- <-.
    split; [|split; [now apply stamped_same | discriminate]].
    apply (throttled_frame s1); auto.
Qed.

Lemma step_throttled (o : Oracle) (i : Input) (s : State) :
  forall s' ev, step o i s = (s', ev) ->
    Inv s -> throttled s ->
    throttled s' /\ stamped s ev s' /\
    (existsb isNet ev = true ->
     (lastApiCallTimestamp s + 1000 <= clock s)%Q).
Proof.
  intros s' ev H HI HT.
  assert (Same : forall s0 : State,
    timers s0 = timers s ->
    lastApiCallTimestamp s0 = lastApiCallTimestamp s ->
    throttled s0 /\ stamped s [] s0 /\
    (existsb isNet [] = true ->
     (lastApiCallTimestamp s + 1000 <= clock s)%Q)).
  { intros s0 E1 E2. split; [|split; [now apply stamped_same | discriminate]].
    apply (throttled_frame s); auto. intros tm r Hin _. now rewrite <- E1. }
  destruct i; simpl in H.
  - eapply speakText_throttled; eauto.
  - unfold stopAudio, safeStopAudio in H.
    destruct (soundRef s); injection H as <- <-.
    + split; [|split; [right; split; reflexivity | discriminate]].
      apply (throttled_frame s); auto.
    + now apply Same.
  - destruct (soundRef s); injection H as <- <-.
    + split; [|split; [right; split; reflexivity | discriminate]].
      apply (throttled_frame s); auto.
    + now apply Same.
  - injection H as <- <-. now apply Same.
  - injection H as <- <-. now apply Same.
  - injection H as <- <-. now apply Same.
  - destruct (Qle_bool 0 dt); injection H as <- <-; now apply Same.
  - destruct (nth_error (timers s) i) as [tm|] eqn:Hn.
    + destruct (Qle_bool (deadline tm) (clock s)) eqn:Hdue.
      * eapply fireTimer_throttled; eauto.
      * injection H as <- <-. now apply Same.
    + injection H as <- <-. now apply Same.
  - destruct (nth_error (inFlight s) i) as [rq|] eqn:Hn.
    + destruct (performSpeakResume o rq r
                  (set_inFlight (removeNth i (inFlight s)) s))
        as [s2 ev2] eqn:E.
      injection H as <- <-.
      pose proof (performSpeakResume_stamp _ _ _ _ _ _ E) as Hl.
      pose proof (performSpeakResume_quiet _ _ _ _ _ _ E) as Hq.
      apply performSpeakResume_spec in E.
      destruct E as (_ & _ & _ & _ & _ & _ & _ & _ & Ht & _).
      simpl in Hl, Ht.
      assert (Hnone : existsb isNet ev2 = false).
      { clear - Hq. induction ev2 as [|e ev2 IH]; [reflexivity|].
        simpl. rewrite (Hq e (or_introl eq_refl)). apply IH.
        intros e' He'. apply Hq. now right. }
      split; [|split].
      * apply (throttled_frame s); auto.
        intros tm r0 Hin Ha. unfold scheduleDrain, addTimer in Hin.
        simpl in Hin. apply in_app_iff in Hin.
        destruct Hin as [Hin|[<-|[]]]; [|discriminate].
        assert (Hf : In tm (filter isDrainTimer (timers s2))).
        { apply filter_In. split; [exact Hin|].
          unfold isDrainTimer. now rewrite Ha. }
        rewrite Ht in Hf. apply filter_In in Hf. apply Hf.
      * right. split; [exact Hnone | exact Hl].
      * rewrite Hnone. discriminate.
    + injection H as <- <-. now apply Same.
Qed.

Lemma run_throttled (ins : list (Oracle * Input)) :
  forall s s' tr, run ins s = (s', tr) ->
    Inv s -> throttled s -> Inv s' /\ throttled s'.
Proof.
  induction ins as [|[o i] ins IH]; intros s s' tr H HI HT; simpl in H.
  - injection H as <- <-. auto.
  - destruct (step o i s) as [s1 ev1] eqn:E1.
    destruct (run ins s1) as [s2 ev2] eqn:E2.
    injection H as <- <-.
    pose proof (step_ok _ _ _ _ _ E1 HI) as [HI1 _].
    pose proof (step_throttled _ _ _ _ _ E1 HI HT) as [HT1 _].
    eapply IH; eauto.
Qed.

(** ** The queue, the cache writer and the URIs that are played *)

Lemma runRequest_queue (o : Oracle) (r : Request) (s : State) :
  forall s' ev, runRequest o r s = (s', ev) ->
    requestQueue s' = requestQueue s.
Proof.
  intros s' ev H. unfold runRequest in H.
  destruct (performSpeak o r s) as [[c s1] ev1] eqn:E.
  apply performSpeak_spec in E.
  destruct E as (_ & _ & _ & _ & Hq & _).
  destruct c; injection H as <- <-; exact Hq.
Qed.

Lemma processQueue_queue (o : Oracle) (s : State) :
  forall s' ev, processQueue o s = (s', ev) ->
    requestQueue s' = tl (requestQueue s).
Proof.
  intros s' ev H. unfold processQueue in H.
  destruct (requestQueue s) as [|request rest] eqn:Hq.
  - injection H as <- <-. simpl. exact Hq.
  - match type of H with
    | (if ?b then _ else _) = _ => destruct b
    end.
    + injection H as <- <-. reflexivity.
    + apply runRequest_queue in H. exact H.
Qed.

Lemma step_cache_writer (o : Oracle) (i : Input) (s : State) :
  forall s' ev, step o i s = (s', ev) ->
    audioCache s' = audioCache s \/
    exists n r c,
      i = NetResponds n (NetOk (Some c)) /\
      nth_error (inFlight s) n = Some r /\
      Js.truthy c = true /\ isMuted s = false /\
      audioCache s' = cachePut (cacheKey r) (wavUri c) (audioCache s).
Proof.
  intros s' ev H. destruct i; simpl in H.
  - apply speakText_setting in H. left. apply H.
  - unfold stopAudio, safeStopAudio in H.
    destruct (soundRef s); injection H as <- <-; now left.
  - destruct (soundRef s); injection H as <- <-; now left.
  - injection H as <- <-; now left.
  - injection H as <- <-; now left.
  - injection H as <- <-; now left.
  - destruct (Qle_bool 0 dt); injection H as <- <-; now left.
  - destruct (nth_error (timers s) i) as [tm|].
    + destruct (Qle_bool (deadline tm) (clock s)).
      * apply fireTimer_setting in H. left. apply H.
      * injection H as <- <-; now left.
    + injection H as <- <-; now left.
  - destruct (nth_error (inFlight s) i) as [rq|] eqn:Hn;
      [|injection H as <- <-; now left].
    unfold performSpeakResume, createAsync in H.
    destruct r as [[content|]|st].
    + simpl isMuted in H. destruct (isMuted s) eqn:Hm.
      { injection H as <- <-. now left. }
      destruct (Js.truthy content) eqn:Hc.
      * right. exists i, rq, content. cbv zeta in H.
        destruct (createOk o (wavUri content)); injection H as <- <-;
          repeat split; auto.
      * injection H as <- <-. now left.
    + simpl isMuted in H. destruct (isMuted s); injection H as <- <-; now left.
    + injection H as <- <-. left.
      destruct (handleError_spec o rq st
                  (set_inFlight (removeNth i (inFlight s)) s))
        as (_ & _ & _ & _ & _ & _ & Hc & _).
      exact Hc.
Qed.

Lemma set_Forall (P : string * string -> Prop) (k v : string) (c : JsMap.t) :
  Forall P c -> (forall k', P (k', v)) -> Forall P (JsMap.set k v c).
Proof.
  intros Hc Hv. induction Hc as [|[k0 v0] c H0 Hc IH]; simpl.
  - constructor; [apply Hv | constructor].
  - destruct (String.eqb k k0); constructor; auto.
Qed.

Lemma delete_Forall (P : string * string -> Prop) (k : string) (c : JsMap.t) :
  Forall P c -> Forall P (JsMap.delete k c).
Proof.
  intros Hc. induction Hc as [|[k0 v0] c H0 Hc IH]; simpl.
  - constructor.
  - destruct (String.eqb k k0); [exact Hc | constructor; auto].
Qed.

Lemma cachePut_wav (k content : string) (c : JsMap.t) :
  Js.truthy content = true -> wavCache c ->
  wavCache (cachePut k (wavUri content) c).
Proof.
  intros Ht Hc. unfold cachePut, wavCache in *. cbv zeta.
  assert (Hs : Forall (fun kv => isWav (snd kv)) (JsMap.set k (wavUri content) c)).
  { apply set_Forall; [exact Hc|]. intros k'. simpl. exists content.
    split; [|reflexivity]. intros ->. discriminate. }
  destruct (CACHE_LIMIT <? JsMap.size (JsMap.set k (wavUri content) c))%nat;
    [|exact Hs].
  destruct (JsMap.firstKey (JsMap.set k (wavUri content) c));
    [now apply delete_Forall | exact Hs].
Qed.

Lemma get_wav (k uri : string) (c : JsMap.t) :
  wavCache c -> JsMap.get k c = Some uri -> isWav uri.
Proof.
  intros Hc. induction Hc as [|[k0 v0] c H0 Hc IH]; simpl; [discriminate|].
  destruct (String.eqb k k0); [|exact IH].
  intros [= <-]. exact H0.
Qed.

Lemma truthy_isWav (content : string) :
  negb (Js.truthy content) = false -> isWav (wavUri content).
Proof.
  intros H. exists content. split; [|reflexivity].
  intros ->. discriminate.
Qed.

Lemma performSpeak_wav (o : Oracle) (r : Request) (s : State) :
  forall c s' ev, performSpeak o r s = (c, s', ev) ->
    wavCache (audioCache s) -> Forall wavEvent ev.
Proof.
  intros c s' ev H Hc. revert H.
  unfold performSpeak, playStoredAudio, safeStopAudio, createAsync, handleError.
  open_state s; simpl in *; intros H;
    repeat (break_in H; simpl in H);
    injection H as <- <- <-; simpl;
    repeat (constructor; simpl; try exact I);
    first [ apply truthy_isWav; assumption | eapply get_wav; eassumption ].
Qed.

Lemma runRequest_wav (o : Oracle) (r : Request) (s : State) :
  forall s' ev, runRequest o r s = (s', ev) ->
    wavCache (audioCache s) -> Forall wavEvent ev.
Proof.
  intros s' ev H Hc. unfold runRequest in H.
  destruct (performSpeak o r s) as [[c s1] ev1] eqn:E.
  pose proof (performSpeak_wav _ _ _ _ _ _ E Hc) as W.
  destruct c; injection H as <- <-; exact W.
Qed.

Lemma processQueue_wav (o : Oracle) (s : State) :
  forall s' ev, processQueue o s = (s', ev) ->
    wavCache (audioCache s) -> Forall wavEvent ev.
Proof.
  intros s' ev H Hc. unfold processQueue in H.
  destruct (requestQueue s) as [|request rest].
  - injection H as <- <-. constructor.
  - match type of H with
    | (if ?b then _ else _) = _ => destruct b
    end.
    + injection H as <- <-. constructor.
    + eapply runRequest_wav; eauto.
Qed.

Lemma step_wav (o : Oracle) (i : Input) (s : State) :
  forall s' ev, step o i s = (s', ev) ->
    wavCache (audioCache s) ->
    wavCache (audioCache s') /\ Forall wavEvent ev.
Proof.
  intros s' ev H Hc. split.
  - destruct (step_cache_writer _ _ _ _ _ H)
      as [->|(n & r & c & _ & _ & Ht & _ & ->)]; [exact Hc|].
    now apply cachePut_wav.
  - destruct i; simpl in H.
    + unfold speakText in H.
      destruct (negb (isReady s) || negb (Js.truthy t) || isMuted s)%bool;
        [injection H as <- <-; constructor|].
      cbv zeta in H.
      match type of H with
      | (if ?b then _ else _) = _ => destruct b
      end; [|injection H as <- <-; constructor].
      eapply processQueue_wav; eauto.
    + unfold stopAudio, safeStopAudio in H.
      destruct (soundRef s); injection H as <- <-;
        repeat (constructor; simpl; try exact I).
    + destruct (soundRef s); injection H as <- <-;
        repeat (constructor; simpl; try exact I).
    + injection H as <- <-. constructor.
    + injection H as <- <-. constructor.
    + injection H as <- <-. constructor.
    + destruct (Qle_bool 0 dt); injection H as <- <-; constructor.
    + destruct (nth_error (timers s) i) as [tm|];
        [|injection H as <- <-; constructor].
      destruct (Qle_bool (deadline tm) (clock s));
        [|injection H as <- <-; constructor].
      destruct (action tm) as [r| |r|]; unfold fireTimer in H.
      * eapply runRequest_wav; eauto.
      * eapply processQueue_wav; eauto.
      * destruct (_ <? _)%nat; [|injection H as <- <-; constructor].
        cbv zeta in H.
        match type of H with
        | (if ?b then _ else _) = _ => destruct b
        end; [|injection H as <- <-; constructor].
        eapply processQueue_wav; eauto.
      * injection H as <- <-. constructor.
    + destruct (nth_error (inFlight s) i) as [rq|];
        [|injection H as <- <-; constructor].
      unfold performSpeakResume, createAsync in H.
      destruct r as [[content|]|st].
      * simpl isMuted in H.
        destruct (isMuted s); [injection H as <- <-; constructor|].
        destruct (Js.truthy content) eqn:Ht;
          [|injection H as <- <-; constructor].
        cbv zeta in H.
        destruct (createOk o (wavUri content)); injection H as <- <-;
          repeat (constructor; simpl; try exact I).
        apply truthy_isWav. now rewrite Ht.
      * simpl isMuted in H.
        destruct (isMuted s); injection H as <- <-; constructor.
      * injection H as <- <-. constructor.
Qed.

Lemma run_wav (ins : list (Oracle * Input)) :
  forall s s' tr, run ins s = (s', tr) ->
    wavCache (audioCache s) ->
    wavCache (audioCache s') /\ Forall wavEvent tr.
Proof.
  induction ins as [|[o i] ins IH]; intros s s' tr H Hc; simpl in H.
  - injection H as <- <-. split; [exact Hc | constructor].
  - destruct (step o i s) as [s1 ev1] eqn:E1.
    destruct (run ins s1) as [s2 ev2] eqn:E2.
    injection H as <- <-.
    destruct (step_wav _ _ _ _ _ E1 Hc) as [Hc1 W1].
    destruct (IH _ _ _ E2 Hc1) as [Hc2 W2].
    split; [exact Hc2 | apply Forall_app; auto].
Qed.

(** ** Lookups after a put, runs in two parts, and the paths of performSpeak *)

Lemma cachePut_get_new (k v : string) (c : JsMap.t) :
  JsMap.get k c = None -> JsMap.get k (cachePut k v c) = Some v.
Proof.
  intros H. rewrite (cachePut_absent _ _ _ H).
  destruct (JsMap.size c <? CACHE_LIMIT)%nat.
  - rewrite get_app_absent, H, String.eqb_refl. reflexivity.
  - rewrite get_app_absent.
    destruct c as [|[k0 v0] c2]; simpl in *.
    + now rewrite String.eqb_refl.
    + destruct (String.eqb k k0); [discriminate|].
      rewrite H, String.eqb_refl. reflexivity.
Qed.

Lemma performSpeak_cached_quiet (o : Oracle) (r : Request) (s : State)
    (uri : string) :
  JsMap.get (cacheKey r) (audioCache s) = Some uri ->
  forall c s' ev, performSpeak o r s = (c, s', ev) ->
    c = Finished /\ existsb isNet ev = false.
Proof.
  intros Hget c s' ev E. revert E.
  unfold performSpeak, playStoredAudio, safeStopAudio, createAsync, handleError.
  open_state s; simpl in *; intros E;
    repeat (first [rewrite Hget in E | break_in E]; simpl in E);
    injection E as <- <- <-; simpl; auto.
Qed.

Lemma run_app (a b : list (Oracle * Input)) (s : State) :
  run (a ++ b) s =
  let '(s1, e1) := run a s in
  let '(s2, e2) := run b s1 in
  (s2, e1 ++ e2).
Proof.
  revert s; induction a as [|[o i] a IH]; intros s; simpl.
  - destruct (run b s) as [s2 e2]. reflexivity.
  - destruct (step o i s) as [s1 ev1]. rewrite IH.
    destruct (run a s1) as [s2 ev2]. destruct (run b s2) as [s3 ev3].
    now rewrite app_assoc.
Qed.

Lemma runFrom_live (muted : bool) (now : Q) (ins : list (Oracle * Input)) :
  live (snd (runFrom muted now ins)) = held (fst (runFrom muted now ins)).
Proof.
  unfold runFrom, live.
  destruct (run ins (initialState muted now)) as [s tr] eqn:E.
  apply run_ok in E; [|apply Inv_initial].
  destruct E as [_ [_ H]]. exact H.
Qed.



(** ** The random helpers *)

Lemma floorRandom_range (rnd : Q) (n : Z) :
  (0 <= rnd)%Q -> (rnd < 1)%Q -> (0 < n)%Z ->
  (0 <= floorRandom rnd n < n)%Z.
Proof.
  intros H0 H1 Hn. unfold floorRandom.
  assert (Hq : (0 < inject_Z n)%Q).
  { change 0%Q with (inject_Z 0). rewrite <- Zlt_Qlt. exact Hn. }
  split.
  - change 0%Z with (Qfloor (inject_Z 0)).
    apply Qfloor_resp_le. change (inject_Z 0) with 0%Q. nra.
  - rewrite Zlt_Qlt.
    apply Qle_lt_trans with (rnd * inject_Z n)%Q; [apply Qfloor_le | nra].
Qed.

End VoiceProvider.

(** ** The helpers on small inputs *)

Example baseLanguage_regional : baseLanguage "hi-IN" = "hi".
Proof. reflexivity. Qed.

Example baseLanguage_missing : baseLanguage "-IN" = "en".
Proof. reflexivity. Qed.

Example serviceIdFor_kannada :
  serviceIdFor "kn" = "ai4bharat/indic-tts-dravidian--gpu-t4".
Proof. reflexivity. Qed.

Example cacheKey_hi : cacheKey (mkRequest "Hi" "hi-IN" None) = "Hi_hi-IN".
Proof. reflexivity. Qed.

Example truncateText_long :
  String.length (truncateText longText) = 303.
Proof. vm_compute. reflexivity. Qed.

Example set_keeps_position :
  JsMap.set "a" "2" [("a", "1"); ("b", "1")] = [("a", "2"); ("b", "1")].
Proof. reflexivity. Qed.

Example cachePut_overflow :
  let entries := List.map (fun n => (replicate n "k"%char, "v")) (seq 1 51) in
  putAll entries JsMap.empty = tl entries.
Proof. vm_compute. reflexivity. Qed.

(** ** The claims *)

Lemma truthy_iff (x : string) : Js.truthy x = true <-> x <> "".
Proof.
  unfold Js.truthy. destruct (String.eqb_spec x ""); simpl; split;
    intros; congruence.
Qed.

Lemma In_netInputs (sl input sid : string) (evs : list Event) :
  In (EvNet sl input sid) evs -> In input (netInputs evs).
Proof.
  intros H. unfold netInputs. apply in_flat_map.
  exists (EvNet sl input sid). split; [exact H | now left].
Qed.

(** C1. Along every run of the provider, whatever the calls of
    speakText and stopAudio and the events around them, at most one
    audio handle is loaded after every effect; and each time a sound is
    created (bundled asset, cache hit or fresh synthesis) no handle is
    loaded just before and exactly the new one just after: the earlier
    playback has been stopped and unloaded, the later request wins. *)
Theorem C1_single_live_handle (store : string -> string -> option string)
    (muted : bool) (now : Q) (ins : list (Oracle * Input)) (n : nat) :
  let tr := snd (runFrom store muted now ins) in
  List.length (live (firstn n tr)) <= 1 /\
  forall h uri,
    nth_error tr n = Some (EvCreate h uri) ->
    live (firstn n tr) = [] /\ live (firstn (S n) tr) = [h].
Proof.
  intros tr. destruct (runFrom_ok store muted now ins) as [_ Hx].
  fold tr in Hx. split.
  - apply exclusive_firstn; [simpl; lia | exact Hx].
  - intros h uri Hn. unfold live. eapply exclusive_create; eauto.
Qed.


(** C3. When the HTTP call of a request answers 429, a timer is installed
    that carries the same request (text, languageCode and route) and is
    due after a delay of 5000 + random * 500 ms, between 5000 and 5500 ms.
    It does nothing before it is due.  When it runs, the request is
    appended to the queue if the queue then holds fewer than 5 requests
    (and the drain loop is started if it was idle); otherwise nothing is
    done and the request is gone. *)
Theorem C3_rate_limited_retry (store : string -> string -> option string)
    (o : Oracle) (n : nat) (r : Request) (s : State) :
  nth_error (inFlight s) n = Some r ->
  (0 <= random o)%Q -> (random o < 1)%Q ->
  let s' := fst (step store o (NetResponds n (NetError (Some 429%Z))) s) in
  let delay := (5000 + random o * 500)%Q in
  let retry := mkTimer (clock s + delay)%Q (RetryRateLimited r) in
  (5000 <= delay)%Q /\ (delay <= 5500)%Q /\
  timers s' = timers s ++ [retry; mkTimer (clock s + 500)%Q DrainNext] /\
  requestQueue s' = requestQueue s /\
  inFlight s' = removeNth n (inFlight s) /\
  forall (o2 : Oracle) (k : nat) (s2 : State),
    nth_error (timers s2) k = Some retry ->
    let s3 := set_timers (removeNth k (timers s2)) s2 in
    ((clock s2 < deadline retry)%Q ->
       step store o2 (TimerFires k) s2 = (s2, [])) /\
    ((deadline retry <= clock s2)%Q ->
       if (List.length (requestQueue s2) <? 5)%nat then
         let s4 := set_requestQueue (requestQueue s2 ++ [r]) s3 in
         requestQueue s4 = requestQueue s2 ++ [r] /\
         step store o2 (TimerFires k) s2 =
           if processingQueue s2 then (s4, []) else processQueue store o2 s4
       else step store o2 (TimerFires k) s2 = (s3, [])).
Proof.
  intros Hn H0 H1 s' delay retry.
  split; [unfold delay; lra|]. split; [unfold delay; lra|].
  subst s'. simpl. rewrite Hn. simpl.
  split; [unfold addTimer; simpl; rewrite <- app_assoc; reflexivity|].
  split; [reflexivity|]. split; [reflexivity|].
  intros o2 k s2 Hk. simpl. rewrite Hk. split.
  - intros Hlt. simpl deadline.
    destruct (Qle_bool (clock s + delay) (clock s2)) eqn:E; [|reflexivity].
    apply Qle_bool_iff in E. simpl in Hlt. exfalso.
    apply (Qlt_not_le _ _ Hlt). exact E.
  - intros Hle. simpl in Hle. apply Qle_bool_iff in Hle.
    simpl deadline. rewrite Hle. simpl.
    change RETRY_QUEUE_LIMIT with 5.
    destruct (List.length (requestQueue s2) <? 5)%nat; [|reflexivity].
    split; [reflexivity|].
    destruct (processingQueue s2); reflexivity.
Qed.

(** C4. On a 401 answer the counter is incremented and, once it exceeds
    3, a timer is installed that resets it five minutes later.  Nothing
    reads the counter before a request is sent: after four 401 answers in
    a row, with the reset still 299 s away, the next speakText is sent to
    the service at once; and in general the effects of processing a
    request are the same whatever the counter holds. *)
Theorem C4_synthesis_not_paused :
  (let s := fst (run emptyStore fourAuthFailures (initialState false 5000%Q)) in
   retryCount s = 4 /\
   timers s = [mkTimer 308000%Q ResetRetryCount] /\
   clock s = 9000%Q /\
   snd (step emptyStore acceptAll (CallSpeakText "five" None None) s)
   = [EvNet "en" "five" "ai4bharat/indic-tts-indo-aryan--gpu-t4"]) /\
  (forall (store : string -> string -> option string) (o : Oracle)
          (r : Request) (k : nat) (s : State),
     snd (performSpeak store o r (set_retryCount k s))
     = snd (performSpeak store o r s) /\
     fst (fst (performSpeak store o r (set_retryCount k s)))
     = fst (fst (performSpeak store o r s))).
Proof.
  split; [vm_compute; repeat split; reflexivity|].
  intros store o r k s.
  unfold performSpeak, playStoredAudio, safeStopAudio, createAsync, handleError.
  open_state s; simpl;
    repeat (break_match; simpl); auto.
Qed.


(** C6. A call of speakText that is accepted (provider ready, not muted,
    text not empty) appends one request to the queue, and starts the
    drain loop if it is idle; the text of that request is the text given
    when it has at most 300 characters, and else its first 300 characters
    followed by "...".  Along every run, the text of every request the
    provider holds and the input of every HTTP call is, in this sense, the
    text given to some call of speakText. *)
Theorem C6_text_truncation (store : string -> string -> option string) :
  (forall (o : Oracle) (t : string) (lang rt : option string) (s : State),
     isReady s = true -> isMuted s = false -> t <> "" ->
     exists x lang',
       truncationOf t x /\
       let s1 := set_requestQueue (requestQueue s ++ [mkRequest x lang' rt]) s in
       speakText store o t lang rt s =
         if processingQueue s then (s1, []) else processQueue store o s1) /\
  (forall (muted : bool) (now : Q) (ins : list (Oracle * Input)),
     (forall r, In r (pending (fst (runFrom store muted now ins))) ->
        exists t, In t (callTexts ins) /\ t <> "" /\ truncationOf t (text r)) /\
     (forall sl input sid,
        In (EvNet sl input sid) (snd (runFrom store muted now ins)) ->
        exists t, In t (callTexts ins) /\ t <> "" /\ truncationOf t input)).
Proof.
  split.
  - intros o t lang rt s Hr Hm Ht.
    exists (truncateText t).
    exists (match lang with
            | Some l => if Js.truthy l then l else "en"
            | None => "en"
            end).
    split; [apply truncateText_spec|].
    unfold speakText. rewrite Hr, Hm.
    apply truthy_iff in Ht. rewrite Ht. simpl.
    destruct (processingQueue s); reflexivity.
  - intros muted now ins. unfold runFrom.
    destruct (run store ins (initialState muted now)) as [s tr] eqn:E.
    apply run_pending in E. destruct E as [E1 E2]. simpl. split.
    + intros r Hr. destruct (E1 r Hr) as [[]|H]. exact H.
    + intros sl input sid Hin. apply In_netInputs in Hin.
      destruct (E2 input Hin) as [(x & [] & _)|H]. exact H.
Qed.

(** C7. Processing a request whose key [text_languageCode] is in the
    cache completes without an HTTP call: no network effect, nothing
    left in flight. *)
Theorem C7_cache_hit_no_network (store : string -> string -> option string)
    (o : Oracle) (r : Request) (s : State) :
  JsMap.has (cacheKey r) (audioCache s) = true ->
  existsb isNet (snd (runRequest store o r s)) = false /\
  inFlight (fst (runRequest store o r s)) = inFlight s /\
  existsb isNet (snd (performSpeak store o r s)) = false /\
  fst (fst (performSpeak store o r s)) = Finished.
Proof.
  unfold JsMap.has. intros Hhas.
  destruct (JsMap.get (cacheKey r) (audioCache s)) as [uri|] eqn:Hget;
    [clear Hhas | discriminate].
  unfold runRequest.
  destruct (performSpeak store o r s) as [[c s1] ev] eqn:E.
  assert (H : c = Finished /\ existsb isNet ev = false /\
              inFlight s1 = inFlight s).
  { revert E.
    unfold performSpeak, playStoredAudio, safeStopAudio, createAsync, handleError.
    open_state s; simpl in *; intros E;
      repeat (first [rewrite Hget in E | break_in E]; simpl in E);
      injection E as <- <- <-; simpl; auto. }
  destruct H as (-> & Hev & Hf). simpl. auto.
Qed.




(** ** The claims on concrete runs *)

(** Two playbacks of "Hi": the second is created with nothing loaded. *)
Lemma C1_single_live_handle_witness :
  let tr := snd (runFrom emptyStore false 5000%Q playTwice) in
  nth_error tr 4 = Some (EvCreate 1 "data:audio/wav;base64,AAAA") /\
  live (firstn 4 tr) = [] /\ live (firstn 5 tr) = [1].
Proof.
  intros tr. split; [vm_compute; reflexivity|].
  apply (proj2 (C1_single_live_handle emptyStore false 5000%Q playTwice 4)
           1 "data:audio/wav;base64,AAAA").
  vm_compute. reflexivity.
Defined.

(** A 429 with the random draw at one half: the retry is due 5250 ms
    later, does nothing before, and then puts the request back. *)
Lemma C3_rate_limited_retry_witness :
  let s := fst (run emptyStore oneInFlight (initialState false 5000%Q)) in
  let r := mkRequest "Hi" "en" None in
  let s' := fst (step emptyStore drawHalf (NetResponds 0 (NetError (Some 429%Z))) s) in
  let s2 := fst (step emptyStore drawHalf (Advance 5250%Q) s') in
  nth_error (inFlight s) 0 = Some r /\
  timers s' = timers s ++
    [mkTimer (clock s + (5000 + random drawHalf * 500))%Q (RetryRateLimited r);
     mkTimer (clock s + 500)%Q DrainNext] /\
  step emptyStore drawHalf (TimerFires 0) s' = (s', []) /\
  requestQueue (fst (step emptyStore drawHalf (TimerFires 0) s2)) = [r].
Proof.
  intros s r s' s2.
  assert (Hn : nth_error (inFlight s) 0 = Some r) by (vm_compute; reflexivity).
  assert (H0 : (0 <= random drawHalf)%Q) by (apply Qle_bool_iff; reflexivity).
  assert (H1 : (random drawHalf < 1)%Q) by (apply Qlt_alt; reflexivity).
  destruct (C3_rate_limited_retry emptyStore drawHalf 0 r s Hn H0 H1)
    as (_ & _ & Ht & _ & _ & Hfire).
  split; [exact Hn|]. split; [exact Ht|]. split.
  - apply (Hfire drawHalf 0 s'); [vm_compute; reflexivity|].
    apply Qlt_alt. vm_compute. reflexivity.
  - destruct (Hfire drawHalf 0 s2) as [_ Hdue]; [vm_compute; reflexivity|].
    assert (Hle : (deadline
                     (mkTimer (clock s + (5000 + random drawHalf * 500))%Q
                        (RetryRateLimited r)) <= clock s2)%Q)
      by (apply Qle_bool_iff; vm_compute; reflexivity).
    specialize (Hdue Hle).
    change (List.length (requestQueue s2) <? 5)%nat with true in Hdue.
    destruct Hdue as [_ Hstep].
    change (processingQueue s2) with true in Hstep.
    rewrite Hstep. vm_compute. reflexivity.
Defined.



(** A short text is enqueued as it is; a text of 301 characters reaches
    the service as its first 300 characters and "...". *)
Lemma C6_text_truncation_witness :
  (exists x lang',
     truncationOf "Hi" x /\
     speakText emptyStore acceptAll "Hi" None None
       (set_processingQueue true (set_isReady true (initialState false 5000%Q)))
     = (set_requestQueue [mkRequest x lang' None]
          (set_processingQueue true (set_isReady true (initialState false 5000%Q))),
        [])) /\
  (exists t,
     In t (callTexts speakLongText) /\ t <> "" /\
     truncationOf t (String.substring 0 300 longText ++ "...")%string).
Proof.
  split.
  - destruct (proj1 (C6_text_truncation emptyStore) acceptAll "Hi" None None
                (set_processingQueue true
                   (set_isReady true (initialState false 5000%Q))))
      as (x & lang' & Hx & Hs); [reflexivity | reflexivity | discriminate |].
    exists x, lang'. split; [exact Hx | exact Hs].
  - apply (proj2 (proj2 (C6_text_truncation emptyStore) false 5000%Q speakLongText)
             "en" _ "ai4bharat/indic-tts-indo-aryan--gpu-t4").
    vm_compute. left. reflexivity.
Defined.

(** "Hi" is cached: processing it again makes no HTTP call. *)
Lemma C7_cache_hit_no_network_witness :
  let s := fst (run emptyStore playTwice (initialState false 5000%Q)) in
  let r := mkRequest "Hi" "en" None in
  JsMap.has (cacheKey r) (audioCache s) = true /\
  existsb isNet (snd (runRequest emptyStore acceptAll r s)) = false /\
  inFlight (fst (runRequest emptyStore acceptAll r s)) = inFlight s.
Proof.
  intros s r.
  assert (H : JsMap.has (cacheKey r) (audioCache s) = true)
    by (vm_compute; reflexivity).
  split; [exact H|].
  destruct (C7_cache_hit_no_network emptyStore acceptAll r s H) as (H1 & H2 & _).
  split; [exact H1 | exact H2].
Defined.




(** ** Further properties of the provider *)

(** X1.  Along every run exactly one activation of the drain loop is suspended
    (on the one-second spacing, on the 500 ms pause or on an HTTP call)
    while [processingQueueRef] is true, and none while it is false; and
    whenever the loop is idle the queue is empty: no request is left
    behind without a drain loop to take it. *)
Theorem drain_loop_single (store : string -> string -> option string)
    (muted : bool) (now : Q) (ins : list (Oracle * Input)) :
  let s := fst (runFrom store muted now ins) in
  suspended s = (if processingQueue s then 1 else 0) /\
  (processingQueue s = true \/ requestQueue s = []).
Proof.
  intros s. destruct (runFrom_ok store muted now ins) as [HI _]. fold s in HI.
  split; [apply HI|].
  destruct (processingQueue s) eqn:E; [now left | right].
  now apply HI.
Qed.

(** X2.  Along every run at most one HTTP call is in flight; while one is, the
    drain loop is marked busy, no sound is held and the cache has no
    entry for the request. *)
Theorem one_call_in_flight (store : string -> string -> option string)
    (muted : bool) (now : Q) (ins : list (Oracle * Input)) :
  let s := fst (runFrom store muted now ins) in
  match inFlight s with
  | [] => True
  | r :: others =>
      others = [] /\ processingQueue s = true /\ soundRef s = None /\
      JsMap.has (cacheKey r) (audioCache s) = false
  end.
Proof.
  intros s. destruct (runFrom_ok store muted now ins) as [HI _]. fold s in HI.
  destruct (inFlight s) as [|r others] eqn:E; [exact I|].
  assert (Hpos : 0 < suspended s) by (unfold suspended; rewrite E; simpl; lia).
  destruct (Inv_busy s HI Hpos) as [Hp H1].
  unfold suspended in H1. rewrite E in H1. simpl in H1.
  split; [apply length_zero_iff_nil; lia|].
  split; [exact Hp|]. split.
  - apply HI. rewrite E. discriminate.
  - unfold JsMap.has. rewrite (inv_uncached _ HI r); [reflexivity|].
    rewrite E. now left.
Qed.

(** X3.  HTTP calls are at least one second apart.  Along every run, a
    transition that makes an HTTP call happens when the clock is at least
    1000 ms past the time kept in [lastApiCallTimestampRef], and it stores
    the time of the call there; every other transition leaves that time
    as it is, so that it is the time of the latest HTTP call. *)
Theorem http_calls_spaced (store : string -> string -> option string)
    (muted : bool) (now : Q) (ins : list (Oracle * Input))
    (o : Oracle) (i : Input) :
  let s := fst (runFrom store muted now ins) in
  let s' := fst (step store o i s) in
  let ev := snd (step store o i s) in
  if existsb isNet ev
  then (lastApiCallTimestamp s + 1000 <= clock s)%Q /\
       lastApiCallTimestamp s' = clock s
  else lastApiCallTimestamp s' = lastApiCallTimestamp s.
Proof.
  intros s s' ev. unfold runFrom in s.
  destruct (run store ins (initialState muted now)) as [s0 tr] eqn:E.
  assert (HT0 : throttled (initialState muted now)) by (intros tm r []).
  destruct (run_throttled store _ _ _ _ E (Inv_initial muted now) HT0)
    as [HI HT].
  simpl in s. subst s s' ev.
  destruct (step store o i s0) as [s1 ev1] eqn:E1. simpl.
  destruct (step_throttled store _ _ _ _ _ E1 HI HT) as (_ & Hs & Hn).
  destruct Hs as [[Hy Hl]|[Hy Hl]]; rewrite Hy; auto.
Qed.

(** X4.  The queue is first in, first out: a transition removes at most the
    request at the head of the queue and appends at most one request at
    its tail, and changes nothing else in it. *)
Theorem queue_discipline (store : string -> string -> option string)
    (o : Oracle) (i : Input) (s : State) :
  exists k appended,
    k <= 1 /\ List.length appended <= 1 /\
    requestQueue (fst (step store o i s))
    = skipn k (requestQueue s ++ appended).
Proof.
  assert (Same : forall s0 : State, requestQueue s0 = requestQueue s ->
    exists k appended, k <= 1 /\ List.length appended <= 1 /\
      requestQueue s0 = skipn k (requestQueue s ++ appended)).
  { intros s0 E. exists 0, []. rewrite app_nil_r. simpl. auto. }
  assert (Push : forall (x : Request) (s0 : State),
    requestQueue s0 = requestQueue s ->
    exists k appended, k <= 1 /\ List.length appended <= 1 /\
      requestQueue (set_requestQueue (requestQueue s0 ++ [x]) s0)
      = skipn k (requestQueue s ++ appended)).
  { intros x s0 E. exists 0, [x]. simpl. rewrite E. auto. }
  assert (Shift : forall (x : Request) (s0 : State),
    requestQueue s0 = requestQueue s ->
    forall s' ev,
      processQueue store o (set_requestQueue (requestQueue s0 ++ [x]) s0)
      = (s', ev) ->
    exists k appended, k <= 1 /\ List.length appended <= 1 /\
      requestQueue s' = skipn k (requestQueue s ++ appended)).
  { intros x s0 E s' ev H. apply processQueue_queue in H.
    exists 1, [x]. rewrite H. simpl requestQueue. rewrite E.
    destruct (requestQueue s ++ [x]); simpl; auto. }
  destruct (step store o i s) as [s' ev] eqn:H. simpl fst.
  destruct i; simpl in H.
  - unfold speakText in H.
    destruct (negb (isReady s) || negb (Js.truthy t) || isMuted s)%bool;
      [injection H as <- <-; now apply Same|].
    cbv zeta in H.
    match type of H with
    | (if ?b then _ else _) = _ => destruct b
    end.
    + eapply (Shift _ s); eauto.
    + injection H as <- <-. now apply (Push _ s).
  - unfold stopAudio, safeStopAudio in H.
    destruct (soundRef s); injection H as <- <-; now apply Same.
  - destruct (soundRef s); injection H as <- <-; now apply Same.
  - injection H as <- <-; now apply Same.
  - injection H as <- <-; now apply Same.
  - injection H as <- <-; now apply Same.
  - destruct (Qle_bool 0 dt); injection H as <- <-; now apply Same.
  - destruct (nth_error (timers s) i) as [tm|];
      [|injection H as <- <-; now apply Same].
    destruct (Qle_bool (deadline tm) (clock s));
      [|injection H as <- <-; now apply Same].
    destruct (action tm) as [r| |r|]; unfold fireTimer in H.
    + apply runRequest_queue in H. now apply Same.
    + apply processQueue_queue in H. exists 1, []. rewrite H, app_nil_r.
      simpl requestQueue. destruct (requestQueue s); simpl; auto.
    + destruct (_ <? _)%nat; [|injection H as <- <-; now apply Same].
      cbv zeta in H.
      match type of H with
      | (if ?b then _ else _) = _ => destruct b
      end.
      * eapply (Shift r (set_timers (removeNth i (timers s)) s)); eauto.
      * injection H as <- <-.
        now apply (Push r (set_timers (removeNth i (timers s)) s)).
    + injection H as <- <-; now apply Same.
  - destruct (nth_error (inFlight s) i) as [rq|];
      [|injection H as <- <-; now apply Same].
    destruct (performSpeakResume o rq r
                (set_inFlight (removeNth i (inFlight s)) s))
      as [s2 ev2] eqn:E.
    injection H as <- <-.
    apply performSpeakResume_spec in E.
    destruct E as (_ & _ & _ & _ & Hq & _). now apply Same.
Qed.

(** X5.  Every request the provider holds along a run (queued, waiting on a
    timer or in flight) has a non-empty text of at most 303 characters
    and a non-empty language code. *)
Theorem held_requests_well_formed (store : string -> string -> option string)
    (muted : bool) (now : Q) (ins : list (Oracle * Input)) (r : Request) :
  In r (pending (fst (runFrom store muted now ins))) ->
  text r <> "" /\ String.length (text r) <= 303 /\ languageCode r <> "".
Proof.
  unfold runFrom.
  destruct (run store ins (initialState muted now)) as [s tr] eqn:E.
  intros Hr.
  destruct (run_requests store wellFormed newRequest_wellFormed _ _ _ _ E)
    as [H _]; [intros x []|].
  exact (H r Hr).
Qed.

(** X6.  Every HTTP call of a run is well formed: the source language is a
    non-empty code without region, the input is a non-empty text of at
    most 303 characters, and the service is the Dravidian one exactly for
    te, ta and kn and the Indo-Aryan one for every other language. *)
Theorem http_calls_well_formed (store : string -> string -> option string)
    (muted : bool) (now : Q) (ins : list (Oracle * Input))
    (sl input sid : string) :
  In (EvNet sl input sid) (snd (runFrom store muted now ins)) ->
  sl <> "" /\ dashFree sl = true /\
  input <> "" /\ String.length input <= 303 /\
  sid = (if Js.includes ["te"; "ta"; "kn"] sl
         then "ai4bharat/indic-tts-dravidian--gpu-t4"
         else "ai4bharat/indic-tts-indo-aryan--gpu-t4").
Proof.
  unfold runFrom.
  destruct (run store ins (initialState muted now)) as [s tr] eqn:E.
  intros He.
  destruct (run_requests store wellFormed newRequest_wellFormed _ _ _ _ E)
    as [_ H]; [intros x []|].
  destruct (H _ He eq_refl) as (x & (Ht & Hl & _) & Hx).
  injection Hx as -> -> ->.
  split; [apply baseLanguage_nonempty|].
  split; [apply baseLanguage_dashFree|].
  split; [exact Ht|]. split; [exact Hl|].
  unfold serviceIdFor. change DRAVIDIAN_LANGUAGES with ["te"; "ta"; "kn"].
  destruct (Js.includes ["te"; "ta"; "kn"] (baseLanguage (languageCode x)));
    [reflexivity|].
  destruct (Js.includes INDO_ARYAN_LANGUAGES (baseLanguage (languageCode x)));
    reflexivity.
Qed.



(** X9.  An answer with audio content that arrives while the provider is not
    muted is cached under the key of its request, also when the playback
    cannot be created; processing the same request again then makes no
    HTTP call. *)
Theorem answered_request_is_cached (store : string -> string -> option string)
    (muted : bool) (now : Q) (ins : list (Oracle * Input))
    (o : Oracle) (n : nat) (r : Request) (content : string) :
  let s := fst (runFrom store muted now ins) in
  let s' := fst (step store o (NetResponds n (NetOk (Some content))) s) in
  nth_error (inFlight s) n = Some r ->
  isMuted s = false -> content <> "" ->
  JsMap.get (cacheKey r) (audioCache s') = Some (wavUri content) /\
  forall o2, existsb isNet (snd (performSpeak store o2 r s')) = false.
Proof.
  intros s s' Hn Hm Hc.
  destruct (runFrom_ok store muted now ins) as [HI _]. fold s in HI.
  assert (Habs : JsMap.get (cacheKey r) (audioCache s) = None).
  { apply HI. eapply nth_error_In; eauto. }
  assert (Hget : JsMap.get (cacheKey r) (audioCache s') = Some (wavUri content)).
  { subst s'. simpl. rewrite Hn.
    unfold performSpeakResume, createAsync. simpl isMuted. rewrite Hm.
    apply truthy_iff in Hc. rewrite Hc. cbv zeta.
    destruct (createOk o (wavUri content)); simpl;
      now apply cachePut_get_new. }
  split; [exact Hget|]. intros o2.
  destruct (performSpeak store o2 r s') as [[c s2] ev] eqn:E. simpl.
  exact (proj2 (performSpeak_cached_quiet store o2 r s' _ Hget c s2 ev E)).
Qed.


(** X11.  Only wav data URIs are cached and played: along every run every
    value in the cache and the URI of every sound that is created has the
    form data:audio/wav;base64,<content> with a non-empty content. *)
Theorem only_wav_uris (store : string -> string -> option string)
    (muted : bool) (now : Q) (ins : list (Oracle * Input)) :
  Forall (fun kv => isWav (snd kv))
    (audioCache (fst (runFrom store muted now ins))) /\
  Forall (fun e => match e with
                   | EvCreate _ uri => isWav uri
                   | _ => True
                   end)
    (snd (runFrom store muted now ins)).
Proof.
  unfold runFrom.
  destruct (run store ins (initialState muted now)) as [s tr] eqn:E.
  apply run_wav in E; [exact E | constructor].
Qed.

(** X12.  After stopAudio, and after a playback has run to its end, nothing is
    loaded and no sound is held, whatever happened before; the requests
    that are queued, waiting or in flight are not touched; and a second
    stopAudio does nothing. *)
Theorem stop_releases_the_sound (store : string -> string -> option string)
    (muted : bool) (now : Q) (ins : list (Oracle * Input)) (o : Oracle) :
  let s := fst (runFrom store muted now ins) in
  let stopped := runFrom store muted now (ins ++ [(o, CallStopAudio)]) in
  let finished := runFrom store muted now (ins ++ [(o, PlaybackFinished)]) in
  (soundRef (fst stopped) = None /\ live (snd stopped) = [] /\
   pending (fst stopped) = pending s /\
   requestQueue (fst stopped) = requestQueue s /\
   step store o CallStopAudio (fst stopped) = (fst stopped, [])) /\
  (soundRef (fst finished) = None /\ live (snd finished) = [] /\
   pending (fst finished) = pending s /\
   requestQueue (fst finished) = requestQueue s /\
   step store o CallStopAudio (fst finished) = (fst finished, [])).
Proof.
  intros s stopped finished.
  assert (Hs : soundRef (fst stopped) = None /\
               pending (fst stopped) = pending s /\
               requestQueue (fst stopped) = requestQueue s).
  { subst stopped s. unfold runFrom. rewrite run_app.
    destruct (run store ins (initialState muted now)) as [s0 tr]. simpl.
    unfold stopAudio, safeStopAudio. destruct (soundRef s0) eqn:E; simpl; auto. }
  assert (Hf : soundRef (fst finished) = None /\
               pending (fst finished) = pending s /\
               requestQueue (fst finished) = requestQueue s).
  { subst finished s. unfold runFrom. rewrite run_app.
    destruct (run store ins (initialState muted now)) as [s0 tr]. simpl.
    destruct (soundRef s0) eqn:E; simpl; auto. }
  destruct Hs as (Hs1 & Hs2 & Hs3). destruct Hf as (Hf1 & Hf2 & Hf3).
  split; (split; [assumption|]); (split; [|split; [assumption|split; [assumption|]]]).
  - unfold stopped. rewrite runFrom_live. unfold held. fold stopped.
    now rewrite Hs1.
  - simpl. unfold stopAudio, safeStopAudio. now rewrite Hs1.
  - unfold finished. rewrite runFrom_live. unfold held. fold finished.
    now rewrite Hf1.
  - simpl. unfold stopAudio, safeStopAudio. now rewrite Hf1.
Qed.


(** X14.  The base language of a language code is never empty and has no dash;
    taking it twice changes nothing; a non-empty code without a dash is
    its own base language, and so is what stands before the dash of a
    code with a region. *)
Theorem baseLanguage_shape (l : string) :
  baseLanguage l <> "" /\
  dashFree (baseLanguage l) = true /\
  baseLanguage (baseLanguage l) = baseLanguage l /\
  (forall region,
     l <> "" -> dashFree l = true ->
     baseLanguage l = l /\ baseLanguage (l ++ String "-" region) = l).
Proof.
  split; [apply baseLanguage_nonempty|].
  split; [apply baseLanguage_dashFree|].
  split.
  - apply baseLanguage_fixed;
      [apply baseLanguage_nonempty | apply baseLanguage_dashFree].
  - intros region Hl Hd. split; [now apply baseLanguage_fixed|].
    unfold baseLanguage. cbv zeta. rewrite (beforeDash_region _ _ Hd).
    destruct l; [congruence | reflexivity].
Qed.

(** X15.  Entries with distinct keys that are put one after the other into the
    empty cache are kept in the order of their insertion, and once more
    than 50 have been put exactly the 50 that were put last remain. *)
Theorem cache_keeps_last_fifty (kvs : list (string * string)) :
  NoDup (List.map fst kvs) ->
  fold_left (fun cache kv => cachePut (fst kv) (snd kv) cache) kvs JsMap.empty
  = skipn (List.length kvs - 50) kvs.
Proof.
  intros H. exact (putAll_last kvs H).
Qed.

(** X16.  getRandomItem never leaves a non-empty array: for a draw in [0, 1) it
    returns one of the elements; on the empty array it returns undefined.
    In particular the user agent of a request is one of the five listed. *)
Theorem getRandomItem_in_array (A : Type) (array : list A) (rnd : Q) :
  (0 <= rnd)%Q -> (rnd < 1)%Q ->
  (array <> [] -> exists x, getRandomItem array rnd = Some x /\ In x array) /\
  getRandomItem (@nil A) rnd = None /\
  exists agent, getRandomItem userAgents rnd = Some agent /\ In agent userAgents.
Proof.
  intros H0 H1.
  assert (G : forall (B : Type) (l : list B), l <> [] ->
            exists x, getRandomItem l rnd = Some x /\ In x l).
  { intros B l Hl. unfold getRandomItem. cbv zeta.
    assert (Hn : (0 < Z.of_nat (List.length l))%Z)
      by (destruct l; [congruence | simpl; lia]).
    pose proof (floorRandom_range rnd _ H0 H1 Hn) as [Hlo Hhi].
    destruct (Z.ltb_spec (floorRandom rnd (Z.of_nat (List.length l))) 0);
      [lia|].
    destruct (nth_error l (Z.to_nat (floorRandom rnd (Z.of_nat (List.length l)))))
      as [x|] eqn:E.
    - exists x. split; [reflexivity|]. eapply nth_error_In; eauto.
    - apply nth_error_None in E. lia. }
  split; [apply G|]. split.
  - unfold getRandomItem. cbv zeta.
    destruct (_ <? _)%Z; [reflexivity|].
    destruct (Z.to_nat _); reflexivity.
  - apply G. discriminate.
Qed.

(** X17.  generateRandomIP writes a dotted quad: for draws in [0, 1) the result
    is four numbers between 0 and 255, in decimal notation, separated by
    dots. *)
Theorem generateRandomIP_dotted_quad (r1 r2 r3 r4 : Q) :
  (0 <= r1 < 1)%Q -> (0 <= r2 < 1)%Q -> (0 <= r3 < 1)%Q -> (0 <= r4 < 1)%Q ->
  exists a b c d : Z,
    (0 <= a <= 255)%Z /\ (0 <= b <= 255)%Z /\
    (0 <= c <= 255)%Z /\ (0 <= d <= 255)%Z /\
    generateRandomIP r1 r2 r3 r4 =
      (decimal a ++ "." ++ decimal b ++ "." ++ decimal c ++ "." ++ decimal d)%string.
Proof.
  intros [A0 A1] [B0 B1] [C0 C1] [D0 D1].
  exists (floorRandom r1 256), (floorRandom r2 256),
         (floorRandom r3 256), (floorRandom r4 256).
  pose proof (floorRandom_range r1 256 A0 A1 eq_refl).
  pose proof (floorRandom_range r2 256 B0 B1 eq_refl).
  pose proof (floorRandom_range r3 256 C0 C1 eq_refl).
  pose proof (floorRandom_range r4 256 D0 D1 eq_refl).
  repeat split; try lia.
Qed.

(** ** The further properties on concrete inputs *)

(** The request for a text of 301 characters, in flight, holds 303. *)
Lemma held_requests_well_formed_witness :
  let r := mkRequest (String.substring 0 300 longText ++ "...") "en" None in
  text r <> "" /\ String.length (text r) <= 303 /\ languageCode r <> "".
Proof.
  intros r.
  apply (held_requests_well_formed emptyStore false 5000%Q speakLongText r).
  vm_compute. left. reflexivity.
Defined.

(** The HTTP call for "Hi" in Kannada goes to the Dravidian service. *)
Lemma http_calls_well_formed_witness :
  "kn" <> "" /\ dashFree "kn" = true /\
  "Hi" <> "" /\ String.length "Hi" <= 303 /\
  "ai4bharat/indic-tts-dravidian--gpu-t4" =
    (if Js.includes ["te"; "ta"; "kn"] "kn"
     then "ai4bharat/indic-tts-dravidian--gpu-t4"
     else "ai4bharat/indic-tts-indo-aryan--gpu-t4").
Proof.
  apply (http_calls_well_formed emptyStore false 5000%Q
           [(acceptAll, SetReady);
            (acceptAll, CallSpeakText "Hi" (Some "kn-IN") None)]
           "kn" "Hi" "ai4bharat/indic-tts-dravidian--gpu-t4").
  vm_compute. left. reflexivity.
Defined.



(** The answer for "Hi" is cached although the audio subsystem rejects
    it, and "Hi" is not sent again. *)
Lemma answered_request_is_cached_witness :
  let o := mkOracle (fun _ => false) 0%Q in
  let s := fst (runFrom emptyStore false 5000%Q oneInFlight) in
  let r := mkRequest "Hi" "en" None in
  let s' := fst (step emptyStore o (NetResponds 0 (NetOk (Some "AAAA"))) s) in
  soundRef s' = None /\
  JsMap.get (cacheKey r) (audioCache s') = Some (wavUri "AAAA") /\
  existsb isNet (snd (performSpeak emptyStore acceptAll r s')) = false.
Proof.
  intros o s r s'. split; [vm_compute; reflexivity|].
  destruct (answered_request_is_cached emptyStore false 5000%Q oneInFlight
              o 0 r "AAAA") as [Hget Hquiet];
    [reflexivity | reflexivity | discriminate |].
  split; [exact Hget | apply Hquiet].
Defined.


(** "hi" and "hi-IN" both have the base language "hi". *)
Lemma baseLanguage_shape_witness :
  baseLanguage "hi" = "hi" /\ baseLanguage "hi-IN" = "hi".
Proof.
  apply (proj2 (proj2 (proj2 (baseLanguage_shape "hi"))) "IN").
  - discriminate.
  - reflexivity.
Defined.

(** Three entries stay as they were put. *)
Lemma cache_keeps_last_fifty_witness :
  fold_left (fun cache kv => cachePut (fst kv) (snd kv) cache)
    [("a", "1"); ("b", "2"); ("c", "3")] JsMap.empty
  = [("a", "1"); ("b", "2"); ("c", "3")].
Proof.
  apply (cache_keeps_last_fifty [("a", "1"); ("b", "2"); ("c", "3")]).
  repeat constructor; simpl; intuition discriminate.
Defined.

(** The draw one half picks the middle one of three items. *)
Lemma getRandomItem_in_array_witness :
  exists x, getRandomItem [10; 20; 30] (1 # 2)%Q = Some x /\ In x [10; 20; 30].
Proof.
  apply (proj1 (getRandomItem_in_array nat [10; 20; 30] (1 # 2)%Q
                  ltac:(apply Qle_bool_iff; reflexivity)
                  ltac:(apply Qlt_alt; reflexivity))).
  discriminate.
Defined.

(** Four draws and their dotted quad. *)
Lemma generateRandomIP_dotted_quad_witness :
  exists a b c d : Z,
    (0 <= a <= 255)%Z /\ (0 <= b <= 255)%Z /\
    (0 <= c <= 255)%Z /\ (0 <= d <= 255)%Z /\
    generateRandomIP 0%Q (1 # 2)%Q (3 # 4)%Q (255 # 256)%Q =
      (decimal a ++ "." ++ decimal b ++ "." ++ decimal c ++ "." ++ decimal d)%string.
Proof.
  apply generateRandomIP_dotted_quad;
    (split; [apply Qle_bool_iff; reflexivity | apply Qlt_alt; reflexivity]).
Defined.

Example generateRandomIP_draws :
  generateRandomIP 0%Q (1 # 2)%Q (3 # 4)%Q (255 # 256)%Q = "0.128.192.255".
Proof. vm_compute. reflexivity. Qed.
